(** * pg-helper: parameterized statement builders over a pooled connection

    A shallow embedding of [src/index.js].  JavaScript objects are kept as
    the list of their own enumerable entries in enumeration order, template
    literals become string concatenation, and the asynchronous, throwing
    functions live in a small monad that threads the history of calls made
    to the driver ([pool.connect], [client.query], [client.release]) and to
    [console.error]. *)

From Stdlib Require Import String Ascii List Arith Lia Bool ZArith.
From Stdlib Require Import DecimalString DecimalNat.
Import ListNotations.
Local Open Scope string_scope.
Local Open Scope list_scope.

(** String concatenation, as [+] and template literals perform it. *)
Infix "+++" := String.append (right associativity, at level 60).

(** ** JavaScript data *)

(** Scalars bound as statement parameters or found in returned rows, and
    what reading a member of [Object.prototype] off a plain object gives. *)
Inductive value : Type :=
| VUndefined
| VNull
| VBool (b : bool)
| VNum (z : Z)
| VStr (s : string)
| VInherited (member : string).

(** A plain object: its own enumerable string-keyed entries, in the order
    [Object.entries] lists them. *)
Definition object (A : Type) : Type := list (string * A).

Definition row : Type := object value.

Definition Object_keys {A} (o : object A) : list string := map fst o.
Definition Object_values {A} (o : object A) : list A := map snd o.
Definition Object_entries {A} (o : object A) : list (string * A) := o.

(** The members every plain object inherits from [Object.prototype]. *)
Definition Object_prototype : list string :=
  ["constructor"; "__defineGetter__"; "__defineSetter__"; "hasOwnProperty";
   "__lookupGetter__"; "__lookupSetter__"; "isPrototypeOf";
   "propertyIsEnumerable"; "toString"; "valueOf"; "__proto__";
   "toLocaleString"].

(** [obj[k]]: the own property [k]; failing that the inherited member of
    that name; failing that [undefined]. *)
Fixpoint get (o : object value) (k : string) : value :=
  match o with
  | [] =>
      if existsb (String.eqb k) Object_prototype then VInherited k
      else VUndefined
  | (k', v) :: o' => if String.eqb k' k then v else get o' k
  end.

Definition has_own {A} (o : object A) (k : string) : bool :=
  existsb (fun e => String.eqb (fst e) k) o.

(** [Array.prototype.map] with the element and its index. *)
Fixpoint mapi_from {A B} (i : nat) (f : A -> nat -> B) (l : list A) : list B :=
  match l with
  | [] => []
  | x :: l' => f x i :: mapi_from (S i) f l'
  end.

Definition mapi {A B} (f : A -> nat -> B) (l : list A) : list B :=
  mapi_from 0 f l.

(** [Array.prototype.join]. *)
Definition join (sep : string) (l : list string) : string :=
  String.concat sep l.

(** [Array.prototype.flat] on an array of arrays (depth one). *)
Definition flat {A} (l : list (list A)) : list A := concat l.

(** A non-negative integer inside a template literal: its decimal digits. *)
Definition number_to_string (n : nat) : string :=
  NilEmpty.string_of_uint (Nat.to_uint n).

(** Truthiness of a string used as a condition: non-empty. *)
Definition truthy (s : string) : bool :=
  match s with
  | EmptyString => false
  | String _ _ => true
  end.

(** ** Errors, outcomes and the history of calls *)

Inductive error : Type :=
| Error (message : string)
| TypeError (message : string)
| DriverError (detail : string).

Inductive outcome (A : Type) : Type :=
| Returned (a : A)
| Thrown (e : error).
Arguments Returned {A} a.
Arguments Thrown {A} e.

Definition client : Type := nat.

Inductive event : Type :=
| EvConnect (r : outcome client)
| EvQuery (c : client) (text : string) (params : list value)
          (r : outcome (list row))
| EvRelease (c : client)
| EvLog (label : string) (e : error).

Definition history : Type := list event.

(** The driver and the server behind it: what [pool.connect()] and
    [client.query(text, params)] answer, given everything that happened
    before. *)
Record database : Type := {
  connect_reply : history -> outcome client;
  query_reply : history -> client -> string -> list value -> outcome (list row)
}.

(** Computations: read the database, extend the history, return or throw. *)
Definition M (A : Type) : Type := database -> history -> outcome A * history.

Definition ret {A} (a : A) : M A := fun _ h => (Returned a, h).

Definition throw {A} (e : error) : M A := fun _ h => (Thrown e, h).

Definition bind {A B} (m : M A) (k : A -> M B) : M B :=
  fun db h =>
    match m db h with
    | (Returned a, h') => k a db h'
    | (Thrown e, h') => (Thrown e, h')
    end.

Declare Scope js_scope.
Delimit Scope js_scope with js.
Notation "x <- m ;; k" := (bind m (fun x => k))
  (at level 61, m at next level, right associativity) : js_scope.
Notation "m ;; k" := (bind m (fun _ => k))
  (at level 61, right associativity) : js_scope.
Local Open Scope js_scope.

(** [try { m } catch (error) { handler error }] *)
Definition try_catch {A} (m : M A) (handler : error -> M A) : M A :=
  fun db h =>
    match m db h with
    | (Returned a, h') => (Returned a, h')
    | (Thrown e, h') => handler e db h'
    end.

(** [try { m } finally { cleanup }]: the cleanup runs on both exits and the
    outcome of [m] stands unless the cleanup itself throws. *)
Definition try_finally {A} (m : M A) (cleanup : M unit) : M A :=
  fun db h =>
    let '(r, h') := m db h in
    match cleanup db h' with
    | (Returned _, h'') => (r, h'')
    | (Thrown e, h'') => (Thrown e, h'')
    end.

Definition pool_connect : M client :=
  fun db h => let r := connect_reply db h in (r, h ++ [EvConnect r]).

Definition client_query (c : client) (text : string) (params : list value)
  : M (list row) :=
  fun db h =>
    let r := query_reply db h c text params in
    (r, h ++ [EvQuery c text params r]).

Definition client_release (c : client) : M unit :=
  fun _ h => (Returned tt, h ++ [EvRelease c]).

Definition console_error (label : string) (e : error) : M unit :=
  fun _ h => (Returned tt, h ++ [EvLog label e]).

(** What a function of the module hands back to its caller. *)
Inductive result : Type :=
| RUndefined
| RRow (r : row)
| RRows (rs : list row).

(** ** The query wrapper *)

Definition query (text : string) (params : list value) : M (list row) :=
  c <- pool_connect ;;
  try_finally
    (rows <- client_query c text params ;; ret rows)
    (client_release c).

(** ** Statement builders *)

(** The loop of [insert] over [Object.entries(data)], pushing each key and
    each value. *)
Definition insert_collect (data : object value) : list string * list value :=
  fold_left
    (fun acc entry =>
       let '(keys, values) := acc in
       let '(key, value) := entry in
       (keys ++ [key], values ++ [value]))
    (Object_entries data) ([], []).

(** [queryText] and [values] of [insert]. *)
Definition insert_statement (table : string) (data : object value)
  : string * list value :=
  let '(keys, values) := insert_collect data in
  let placeholders :=
    join ", " (mapi (fun _ i => "$" +++ number_to_string (i + 1)) keys) in
  let queryText :=
    "INSERT INTO " +++ table +++ " (" +++ join ", " keys +++ ") VALUES ("
      +++ placeholders +++ ") RETURNING *;" in
  (queryText, values).

Definition insert (table : string) (data : object value) : M result :=
  let '(queryText, values) := insert_statement table data in
  result <- query queryText values ;;
  ret (match result with
       | [] => RUndefined
       | first :: _ => RRow first
       end).

(** [queryText] and [values] of [select]. *)
Definition select_statement (table : string) (where_ : object value)
  : string * list value :=
  let keys := Object_keys where_ in
  let values := Object_values where_ in
  let conditions :=
    join " AND "
      (mapi (fun key i => key +++ " = $" +++ number_to_string (i + 1)) keys) in
  let queryText :=
    "SELECT * FROM " +++ table
      +++ (if truthy conditions then " WHERE " +++ conditions else "") +++ ";" in
  (queryText, values).

(** An omitted filter defaults to the empty object. *)
Definition default_where (where_ : option (object value)) : object value :=
  match where_ with
  | Some w => w
  | None => []
  end.

Definition select (table : string) (where_ : option (object value)) : M result :=
  let where_ := default_where where_ in
  let '(queryText, values) := select_statement table where_ in
  result <- query queryText values ;;
  ret (RRows result).

Definition create (table : string) (columns : object string) : M result :=
  let columnDefinitions :=
    join ", "
      (map (fun entry => let '(key, value) := entry in key +++ " " +++ value)
           (Object_entries columns)) in
  let queryText :=
    "CREATE TABLE IF NOT EXISTS " +++ table +++ " (" +++ columnDefinitions +++ ");" in
  rows <- query queryText [] ;;
  ret (RRows rows).

(** The [changes] argument of [alterTable]: each property is absent or
    holds a (truthy) object or array. *)
Record changes : Type := {
  add : option (object string);
  drop_ : option (list string);
  modify : option (object string)
}.

Definition alterations_of (ch : changes) : list string :=
  let alterations := [] in
  let alterations :=
    match add ch with
    | Some a =>
        alterations ++
        map (fun entry => let '(column, type) := entry in
                          "ADD COLUMN " +++ column +++ " " +++ type)
            (Object_entries a)
    | None => alterations
    end in
  let alterations :=
    match drop_ ch with
    | Some d => alterations ++ map (fun column => "DROP COLUMN " +++ column) d
    | None => alterations
    end in
  let alterations :=
    match modify ch with
    | Some m =>
        alterations ++
        map (fun entry => let '(column, newType) := entry in
                          "ALTER COLUMN " +++ column +++ " TYPE " +++ newType)
            (Object_entries m)
    | None => alterations
    end in
  alterations.

Definition alterTable (table : string) (ch : changes) : M result :=
  let alterations := alterations_of ch in
  if Nat.eqb (length alterations) 0 then
    throw (Error "No valid alterations provided.")
  else
    let queryText := "ALTER TABLE " +++ table +++ " " +++ join ", " alterations +++ ";" in
    rows <- query queryText [] ;;
    ret (RRows rows).

(** The character class [[a-zA-Z0-9_]]. *)
Definition is_name_char (c : ascii) : bool :=
  let n := nat_of_ascii c in
  (((97 <=? n) && (n <=? 122)) || ((65 <=? n) && (n <=? 90))
   || ((48 <=? n) && (n <=? 57)) || (n =? 95))%nat.

Fixpoint all_chars (p : ascii -> bool) (s : string) : bool :=
  match s with
  | EmptyString => true
  | String c s' => p c && all_chars p s'
  end.

(** [/^[a-zA-Z0-9_]+$/.test(name)]: one or more class characters and
    nothing else. *)
Definition name_regex_test (name : string) : bool :=
  truthy name && all_chars is_name_char name.

Definition createDB (database : string) : M result :=
  if negb (name_regex_test database) then
    throw (Error "Invalid database name")
  else
    let newDatabase := "CREATE DATABASE " +++ database in
    rows <- query newDatabase [] ;;
    ret (RRows rows).

(** The double-quote character, as it appears inside a message. *)
Definition dquote : string := String (ascii_of_nat 34) EmptyString.

Definition drop (type : string) (name : string) : M result :=
  if negb (name_regex_test name) then
    throw (Error "Invalid name provided. Only alphanumeric characters and underscores are allowed.")
  else if String.eqb type "table" then
    rows <- query ("DROP TABLE IF EXISTS " +++ name) [] ;;
    ret (RRows rows)
  else if String.eqb type "database" then
    rows <- query ("DROP DATABASE IF EXISTS " +++ name) [] ;;
    ret (RRows rows)
  else if String.eqb type "column" then
    throw (Error "Columns cannot be dropped using this function, use the alterTable function to drop columns.")
  else
    throw (Error ("Invalid type (" +++ type +++ ") provided. Use "
                    +++ dquote +++ "table" +++ dquote +++ " or "
                    +++ dquote +++ "database" +++ dquote +++ ".")).

(** [queryText] and [values] of [update]. *)
Definition update_statement (table : string) (data where_ : object value)
  : string * list value :=
  let setString :=
    join ", "
      (mapi (fun key i => key +++ " = $" +++ number_to_string (i + 1))
            (Object_keys data)) in
  let whereString :=
    join " AND "
      (mapi (fun key i =>
               key +++ " = $"
                 +++ number_to_string (i + 1 + length (Object_keys data)))
            (Object_keys where_)) in
  let values := Object_values data ++ Object_values where_ in
  let queryText :=
    "UPDATE " +++ table +++ " SET " +++ setString +++ " WHERE " +++ whereString +++ ";" in
  (queryText, values).

Definition update (table : string) (data where_ : object value) : M result :=
  let '(queryText, values) := update_statement table data where_ in
  query queryText values ;;
  ret RUndefined.

(** [queryText] and [values.flat()] of [insertBulk] for an array whose
    first element is [first]. *)
Definition insertBulk_statement (table : string) (first : object value)
  (dataArray : list (object value)) : string * list value :=
  let keys := Object_keys first in
  let values := map (fun obj => map (fun k => get obj k) keys) dataArray in
  let placeholders :=
    join ", "
      (mapi (fun row i =>
               "(" +++ join ", "
                        (mapi (fun _ j =>
                                 "$" +++ number_to_string (i * length keys + j + 1))
                              row)
                   +++ ")")
            values) in
  let queryText :=
    "INSERT INTO " +++ table +++ " (" +++ join ", " keys +++ ") VALUES "
      +++ placeholders +++ " RETURNING *;" in
  (queryText, flat values).

Definition insertBulk (table : string) (dataArray : list (object value))
  : M result :=
  match dataArray with
  | [] => throw (Error "No data provided for bulk insert.")
  | first :: _ =>
      let '(queryText, values) := insertBulk_statement table first dataArray in
      rows <- query queryText values ;;
      ret (RRows rows)
  end.

(** [copy] handles the csv format only and hands back nothing otherwise. *)
Definition copy (table file format : string) (header : bool) : M result :=
  if String.eqb format "csv" then
    if header then
      rows <- query ("COPY " +++ table +++ " FROM '" +++ file
                       +++ "' WITH (FORMAT csv, HEADER true)") [] ;;
      ret (RRows rows)
    else
      rows <- query ("COPY " +++ table +++ " FROM '" +++ file
                       +++ "' WITH (FORMAT csv, HEADER false)") [] ;;
      ret (RRows rows)
  else
    ret RUndefined.

(** ** Exported functions *)

Definition updateTable (table : string) (data where_ : object value) : M result :=
  try_catch (update table data where_)
    (fun error =>
       console_error "Database update error:" error ;;
       throw (Error "Failed to update the table.")).

Definition createTable (table : string) (columns : object string) : M result :=
  try_catch (create table columns)
    (fun error =>
       console_error "Database query error:" error ;;
       throw (Error "Failed to execute database query.")).

(** The [data] argument of [insertIntoTable], as [Array.isArray] sorts it. *)
Inductive insert_data : Type :=
| DataObject (data : object value)
| DataArray (dataArray : list (object value)).

Definition insertIntoTable (table : string) (data : insert_data) : M result :=
  try_catch
    (match data with
     | DataArray dataArray => insertBulk table dataArray
     | DataObject data => insert table data
     end)
    (fun error =>
       console_error ("Error inserting into '" +++ table +++ "':") error ;;
       throw (Error ("Failed to insert into '" +++ table +++ "'."))).

Definition selectFromTable (table : string) (where_ : option (object value))
  : M result :=
  let where_ := default_where where_ in
  try_catch (select table (Some where_))
    (fun error =>
       console_error "Database query error:" error ;;
       throw (Error "Failed to execute database query.")).

Definition dropTable (name : string) : M result :=
  try_catch (drop "table" name)
    (fun error =>
       console_error "Database query error:" error ;;
       throw (Error "Failed to execute database query.")).

Definition dropDatabase (name : string) : M result :=
  try_catch (drop "database" name)
    (fun error =>
       console_error "Database query error:" error ;;
       throw (Error "Failed to execute database query.")).

(** The [column] argument of [dropColumn], as [Array.isArray] sorts it. *)
Inductive column_arg : Type :=
| ColumnName (column : string)
| ColumnArray (columns : list string).

Definition dropColumn (table : string) (column : column_arg) : M result :=
  let columns :=
    match column with
    | ColumnArray columns => columns
    | ColumnName column => [column]
    end in
  alterTable table {| add := None; drop_ := Some columns; modify := None |}.

Definition createDatabase (name : string) : M result :=
  try_catch (createDB name)
    (fun error =>
       console_error "Database query error:" error ;;
       throw (Error "Failed to execute database query.")).

Definition modifyColumns (table : string) (columns : object string) : M result :=
  try_catch
    (alterTable table {| add := None; drop_ := None; modify := Some columns |})
    (fun error =>
       console_error "Database query error:" error ;;
       throw (Error "Failed to execute database query.")).

(** A plain object inside a template literal.  Its entries here hold
    strings, so an own [toString] entry is not callable and the conversion
    throws; otherwise [Object.prototype.toString] answers. *)
Definition object_in_template {A} (o : object A) : M string :=
  if has_own o "toString" then
    throw (TypeError "Cannot convert object to primitive value")
  else
    ret "[object Object]".

Definition addColumns (table : string) (columns : object string) : M result :=
  try_catch
    (alterTable table {| add := Some columns; drop_ := None; modify := None |})
    (fun error =>
       shown <- object_in_template columns ;;
       console_error ("Failed to add '" +++ shown +++ "' to '" +++ table +++ "':")
         error ;;
       shown <- object_in_template columns ;;
       throw (Error ("Failed to add '" +++ shown +++ "' to '" +++ table +++ "'."))).

(** ** Reading a statement back *)

Definition is_digit (c : ascii) : bool :=
  let n := nat_of_ascii c in ((48 <=? n) && (n <=? 57))%nat.

Definition digit_value (c : ascii) : nat := nat_of_ascii c - 48.

(** The number spelled by the leading digits of [s], continuing [acc]. *)
Fixpoint read_number (acc : nat) (s : string) : nat :=
  match s with
  | EmptyString => acc
  | String c s' =>
      if is_digit c then read_number (10 * acc + digit_value c) s' else acc
  end.

Definition starts_with_digit (s : string) : bool :=
  match s with
  | EmptyString => false
  | String c _ => is_digit c
  end.

Definition dollar : ascii := ascii_of_nat 36.

(** The positional placeholders of a statement text, left to right: each
    [$] directly followed by digits, with the number the digits spell. *)
Fixpoint placeholders_of (text : string) : list nat :=
  match text with
  | EmptyString => []
  | String c rest =>
      if Ascii.eqb c dollar && starts_with_digit rest
      then read_number 0 rest :: placeholders_of rest
      else placeholders_of rest
  end.

(** No [$] anywhere in an identifier. *)
Definition dollar_free (s : string) : bool :=
  all_chars (fun c => negb (Ascii.eqb c dollar)) s.

(** The statements that reached [client.query], oldest first. *)
Fixpoint executed (h : history) : list (string * list value) :=
  match h with
  | [] => []
  | EvQuery _ text params _ :: h' => (text, params) :: executed h'
  | _ :: h' => executed h'
  end.

(** The calls made to the driver (anything but logging), oldest first. *)
Definition driver_calls (h : history) : history :=
  filter (fun ev => match ev with EvLog _ _ => false | _ => true end) h.

(** A database that always hands out connection [c] and answers [rows]. *)
Definition steady (c : client) (rows : list row) : database :=
  {| connect_reply := fun _ => Returned c;
     query_reply := fun _ _ _ _ => Returned rows |}.

(** A database whose server rejects every statement with [e]. *)
Definition rejecting (c : client) (e : error) : database :=
  {| connect_reply := fun _ => Returned c;
     query_reply := fun _ _ _ _ => Thrown e |}.

(** One trip through the query wrapper on connection [c]. *)
Definition round_trip (c : client) (text : string) (params : list value)
  (r : outcome (list row)) : history :=
  [EvConnect (Returned c); EvQuery c text params r; EvRelease c].

(** At history [h] the pool hands out [c] and the server then answers [r]
    to [text] with [params]. *)
Definition answers (db : database) (h : history) (c : client) (text : string)
  (params : list value) (r : outcome (list row)) : Prop :=
  connect_reply db h = Returned c /\
  query_reply db (h ++ [EvConnect (Returned c)]) c text params = r.

(** [$from, ..., $(from+n-1)] *)
Definition dollars (from n : nat) : list string :=
  map (fun i => "$" +++ number_to_string i) (seq from n).

(** [k1 = $from, k2 = $(from+1), ...] *)
Fixpoint equalities (from : nat) (keys : list string) : list string :=
  match keys with
  | [] => []
  | k :: ks => (k +++ " = $" +++ number_to_string from) :: equalities (S from) ks
  end.

(** The value tuples of a bulk insert of [n] rows over [k] columns: tuple
    [i] holds the placeholders [i*k+1 .. i*k+k]. *)
Definition tuple (k i : nat) : string :=
  "(" +++ join ", "
            (map (fun j => "$" +++ number_to_string (i * k + j + 1)) (seq 0 k))
      +++ ")".

Definition tuples (k n : nat) : list string := map (tuple k) (seq 0 n).

(** What a wrapped operation hands back for the server's answer [r]:
    the rows through [f], or the operation's own error. *)
Definition wrapped (f : list row -> result) (generic : string)
  (r : outcome (list row)) : outcome result :=
  match r with
  | Returned rows => Returned (f rows)
  | Thrown _ => Thrown (Error generic)
  end.

(** What a wrapped operation logs for the server's answer [r]. *)
Definition logged (label : string) (r : outcome (list row)) : history :=
  match r with
  | Returned _ => []
  | Thrown e => [EvLog label e]
  end.

(** The pattern [^[A-Za-z0-9_]+$], read as a predicate on strings. *)
Definition in_range (lo hi c : ascii) : Prop :=
  nat_of_ascii lo <= nat_of_ascii c /\ nat_of_ascii c <= nat_of_ascii hi.

Definition pattern_char (c : ascii) : Prop :=
  in_range "A" "Z" c \/ in_range "a" "z" c \/ in_range "0" "9" c \/ c = "_"%char.

Inductive one_or_more (P : ascii -> Prop) : string -> Prop :=
| one_char c : P c -> one_or_more P (String c EmptyString)
| more_chars c s : P c -> one_or_more P s -> one_or_more P (String c s).

Definition valid_identifier (name : string) : Prop :=
  one_or_more pattern_char name.

(** What [insert] hands back for the rows the server returned. *)
Definition first_row (rows : list row) : result :=
  match rows with
  | [] => RUndefined
  | first :: _ => RRow first
  end.

(** The number of entries a [changes] object carries in all. *)
Definition change_count (ch : changes) : nat :=
  match add ch with Some a => length a | None => 0 end
  + match drop_ ch with Some d => length d | None => 0 end
  + match modify ch with Some m => length m | None => 0 end.

(** A piece of statement text [p] contributes exactly the placeholders
    [ns], whatever non-digit text follows it. *)
Definition emits (p : string) (ns : list nat) : Prop :=
  forall rest, starts_with_digit rest = false ->
    placeholders_of (p +++ rest) = ns ++ placeholders_of rest.

(** Text that never runs into a following digit: it starts with a
    character that is not one. *)
Definition literal (p : string) : Prop :=
  forall rest, starts_with_digit (p +++ rest) = false.

(** The driver traffic one call may cause: none, a refused connection, or
    one full trip (connect, one statement, release). *)
Inductive traffic : history -> Prop :=
| traffic_none : traffic []
| traffic_refused e : traffic [EvConnect (Thrown e)]
| traffic_trip c text params r : traffic (round_trip c text params r).

(** [m] only extends the history, and what it adds is at most one trip. *)
Definition one_trip {A} (m : M A) : Prop :=
  forall db h, exists l, snd (m db h) = h ++ l /\ traffic (driver_calls l).

(** [m] only extends the history, and never calls the driver. *)
Definition silent {A} (m : M A) : Prop :=
  forall db h, exists l, snd (m db h) = h ++ l /\ driver_calls l = [].

(** A database whose pool refuses every connection with [e]. *)
Definition unreachable (e : error) : database :=
  {| connect_reply := fun _ => Thrown e;
     query_reply := fun _ _ _ _ => Returned [] |}.

(** The column definitions of [CREATE TABLE], one per entry. *)
Fixpoint column_definitions (columns : object string) : list string :=
  match columns with
  | [] => []
  | (name, type) :: rest => (name +++ " " +++ type) :: column_definitions rest
  end.

(** The sub-clauses of [ALTER TABLE], one per entry, each made by [clause]. *)
Fixpoint clauses {A} (clause : A -> string) (entries : list A) : list string :=
  match entries with
  | [] => []
  | e :: rest => clause e :: clauses clause rest
  end.

(** A statement with no placeholder in its text and no bound value. *)
Definition bare (statement : string * list value) : Prop :=
  placeholders_of (fst statement) = [] /\ snd statement = [].

(** ** Strings and lists *)

Lemma append_assoc (a b c : string) : (a +++ b) +++ c = a +++ (b +++ c).
Proof. induction a as [|x a IH]; simpl; [reflexivity | now rewrite IH]. Qed.

Lemma append_nil_r (a : string) : a +++ "" = a.
Proof. induction a as [|x a IH]; simpl; [reflexivity | now rewrite IH]. Qed.

Lemma join_cons sep x l :
  join sep (x :: l) = match l with [] => x | _ => x +++ sep +++ join sep l end.
Proof. destruct l; reflexivity. Qed.

Lemma insert_collect_from (data : object value) keys values :
  fold_left
    (fun acc entry =>
       let '(keys, values) := acc in
       let '(key, value) := entry in
       (keys ++ [key], values ++ [value]))
    data (keys, values)
  = (keys ++ Object_keys data, values ++ Object_values data).
Proof.
  revert keys values.
  induction data as [|[k v] data IH]; intros keys values; simpl.
  - now rewrite !List.app_nil_r.
  - rewrite IH, <- !List.app_assoc. reflexivity.
Qed.

Lemma insert_collect_spec (data : object value) :
  insert_collect data = (Object_keys data, Object_values data).
Proof. unfold insert_collect, Object_entries. apply insert_collect_from. Qed.

Lemma mapi_from_dollars {A} (l : list A) i :
  mapi_from i (fun _ i => "$" +++ number_to_string (i + 1)) l
  = dollars (i + 1) (length l).
Proof.
  revert i. induction l as [|x l IH]; intros i; simpl; [reflexivity|].
  unfold dollars in *. simpl. f_equal.
  rewrite IH. now replace (S i + 1) with (S (i + 1)) by lia.
Qed.

Lemma mapi_from_equalities keys i m :
  mapi_from i (fun key i => key +++ " = $" +++ number_to_string (i + 1 + m)) keys
  = equalities (i + 1 + m) keys.
Proof.
  revert i. induction keys as [|k keys IH]; intros i; simpl; [reflexivity|].
  f_equal. rewrite IH. reflexivity.
Qed.

Lemma mapi_from_equalities0 keys i :
  mapi_from i (fun key i => key +++ " = $" +++ number_to_string (i + 1)) keys
  = equalities (i + 1) keys.
Proof.
  revert i. induction keys as [|k keys IH]; intros i; simpl; [reflexivity|].
  f_equal. rewrite IH. reflexivity.
Qed.

Lemma map_seq_offset {B} (g : nat -> B) (a b k : nat) :
  map (fun j => g (a + j)) (seq b k) = map g (seq (a + b) k).
Proof.
  revert b. induction k as [|k IH]; intros b; simpl; [reflexivity|].
  f_equal. rewrite IH. now replace (a + S b) with (S (a + b)) by lia.
Qed.

Lemma tuple_dollars (k i : nat) :
  tuple k i = "(" +++ join ", " (dollars (i * k + 1) k) +++ ")".
Proof.
  unfold tuple, dollars.
  assert (E : map (fun j => "$" +++ number_to_string (i * k + j + 1)) (seq 0 k)
              = map (fun m => "$" +++ number_to_string m) (seq (i * k + 1) k)).
  { transitivity
      (map (fun j => (fun m => "$" +++ number_to_string m) (i * k + 1 + j))
           (seq 0 k)).
    - apply map_ext. intros j. do 2 f_equal. lia.
    - pose proof (map_seq_offset (fun m => "$" +++ number_to_string m)
                    (i * k + 1) 0 k) as H.
      rewrite Nat.add_0_r in H. exact H. }
  now rewrite E.
Qed.

Lemma mapi_from_tuples {A} (k : nat) (rows : list (list A)) i :
  Forall (fun r => length r = k) rows ->
  mapi_from i
    (fun row i =>
       "(" +++ join ", "
                 (mapi (fun _ j => "$" +++ number_to_string (i * k + j + 1)) row)
           +++ ")")
    rows
  = map (tuple k) (seq i (length rows)).
Proof.
  pose proof (tuple_dollars k) as T.
  intros H. revert i. induction H as [|r rows Hr _ IH]; intros i; simpl.
  - reflexivity.
  - rewrite IH. f_equal. rewrite T. do 2 f_equal.
    unfold mapi.
    assert (G : forall (l : list A) j,
               mapi_from j
                 (fun _ j => "$" +++ number_to_string (i * k + j + 1)) l
               = dollars (i * k + j + 1) (length l)).
    { clear. induction l as [|x l IHl]; intros j; simpl; [reflexivity|].
      unfold dollars in *. simpl. f_equal. rewrite IHl.
      now replace (i * k + S j + 1) with (S (i * k + j + 1)) by lia. }
    rewrite G, Hr. now rewrite Nat.add_0_r.
Qed.

(** ** Decimal digits and the placeholder reader *)

Lemma all_chars_impl (p q : ascii -> bool) (s : string) :
  (forall c, p c = true -> q c = true) ->
  all_chars p s = true -> all_chars q s = true.
Proof.
  intros Hpq. induction s as [|c s IH]; simpl; [reflexivity|].
  rewrite !andb_true_iff. intros [Hc Hs]. split; [now apply Hpq | now apply IH].
Qed.

Lemma all_chars_append (p : ascii -> bool) (a b : string) :
  all_chars p (a +++ b) = all_chars p a && all_chars p b.
Proof.
  induction a as [|c a IH]; simpl; [reflexivity|].
  now rewrite IH, andb_assoc.
Qed.

Lemma digit_not_dollar (c : ascii) :
  is_digit c = true -> negb (Ascii.eqb c dollar) = true.
Proof.
  destruct (Ascii.eqb_spec c dollar) as [->|_]; [|reflexivity].
  vm_compute. discriminate.
Qed.

Lemma uint_digits (d : Decimal.uint) :
  all_chars is_digit (NilEmpty.string_of_uint d) = true.
Proof. induction d; simpl; try reflexivity; assumption. Qed.

Lemma to_uint_nonnil (n : nat) : Nat.to_uint n <> Decimal.Nil.
Proof.
  intros H. pose proof (Unsigned.of_to n) as E.
  rewrite H in E. simpl in E. subst n. discriminate H.
Qed.

Lemma read_number_stop acc rest :
  starts_with_digit rest = false -> read_number acc rest = acc.
Proof. destruct rest as [|c rest]; simpl; [reflexivity | now intros ->]. Qed.

Lemma read_number_uint (d : Decimal.uint) acc rest :
  starts_with_digit rest = false ->
  read_number acc (NilEmpty.string_of_uint d +++ rest) = Nat.of_uint_acc d acc.
Proof.
  intros Hrest. revert acc.
  induction d; intros acc;
    [ now apply read_number_stop
    | cbn [NilEmpty.string_of_uint String.append read_number];
      change (is_digit _) with true; cbv iota;
      rewrite IHd; cbn [Nat.of_uint_acc]; f_equal;
      rewrite Nat.tail_mul_spec; vm_compute digit_value; lia .. ].
Qed.

Lemma number_to_string_digits (n : nat) :
  all_chars is_digit (number_to_string n) = true.
Proof. apply uint_digits. Qed.

Lemma number_to_string_dollar_free (n : nat) :
  dollar_free (number_to_string n) = true.
Proof.
  unfold dollar_free.
  apply all_chars_impl with (p := is_digit); [apply digit_not_dollar|].
  apply number_to_string_digits.
Qed.

Lemma number_to_string_starts (n : nat) rest :
  starts_with_digit (number_to_string n +++ rest) = true.
Proof.
  pose proof (number_to_string_digits n) as H.
  pose proof (to_uint_nonnil n) as N.
  unfold number_to_string in *.
  destruct (Nat.to_uint n); [congruence | simpl; reflexivity ..].
Qed.

Lemma read_number_to_string (n : nat) rest :
  starts_with_digit rest = false ->
  read_number 0 (number_to_string n +++ rest) = n.
Proof.
  intros H. unfold number_to_string. rewrite read_number_uint by assumption.
  apply Unsigned.of_to.
Qed.

Lemma placeholders_skip (p rest : string) :
  dollar_free p = true -> placeholders_of (p +++ rest) = placeholders_of rest.
Proof.
  unfold dollar_free. induction p as [|c p IH]; simpl; [reflexivity|].
  rewrite andb_true_iff. intros [Hc Hp].
  apply negb_true_iff in Hc. rewrite Hc. simpl. now apply IH.
Qed.

Lemma placeholders_dollar (n : nat) (rest : string) :
  starts_with_digit rest = false ->
  placeholders_of ("$" +++ number_to_string n +++ rest) = n :: placeholders_of rest.
Proof.
  intros H.
  change ("$" +++ number_to_string n +++ rest)
    with (String dollar (number_to_string n +++ rest)).
  cbn [placeholders_of].
  rewrite Ascii.eqb_refl, number_to_string_starts. cbn [andb].
  rewrite read_number_to_string by assumption.
  now rewrite placeholders_skip by apply number_to_string_dollar_free.
Qed.

Lemma emits_whole (text : string) (ns : list nat) :
  emits text ns -> placeholders_of text = ns.
Proof.
  intros H. specialize (H "" eq_refl).
  now rewrite append_nil_r, List.app_nil_r in H.
Qed.

Lemma emits_free (p : string) : dollar_free p = true -> emits p [].
Proof. intros H rest _. now apply placeholders_skip. Qed.

Lemma emits_after_free (a b : string) (ns : list nat) :
  dollar_free a = true -> emits b ns -> emits (a +++ b) ns.
Proof.
  intros Ha Hb rest Hrest. rewrite append_assoc, placeholders_skip by assumption.
  now apply Hb.
Qed.

Lemma emits_then_literal (a b : string) (ns ms : list nat) :
  emits a ns -> literal b -> emits b ms -> emits (a +++ b) (ns ++ ms).
Proof.
  intros Ha Lb Hb rest Hrest.
  rewrite append_assoc, Ha by apply Lb.
  rewrite Hb by assumption. now rewrite List.app_assoc.
Qed.

Lemma emits_dollar (n : nat) : emits ("$" +++ number_to_string n) [n].
Proof.
  intros rest Hrest. rewrite append_assoc. now apply placeholders_dollar.
Qed.

Lemma emits_equality (k : string) (n : nat) :
  dollar_free k = true -> emits (k +++ " = $" +++ number_to_string n) [n].
Proof.
  intros Hk. apply emits_after_free; [assumption|].
  change (" = $" +++ number_to_string n)
    with (" = " +++ "$" +++ number_to_string n).
  apply emits_after_free; [reflexivity | apply emits_dollar].
Qed.

Lemma emits_join (sep : string) (pieces : list string) (nss : list (list nat)) :
  dollar_free sep = true -> literal sep ->
  Forall2 emits pieces nss -> emits (join sep pieces) (concat nss).
Proof.
  intros Fsep Lsep H. induction H as [|p ns pieces nss Hp Hrest IH].
  - now apply emits_free.
  - rewrite join_cons. cbn [concat]. destruct Hrest as [|q ms pieces nss Hq Hrest].
    + cbn [concat]. now rewrite List.app_nil_r.
    + intros rest R. rewrite append_assoc, Hp.
      * rewrite append_assoc, placeholders_skip by assumption.
        rewrite IH by assumption. now rewrite List.app_assoc.
      * rewrite append_assoc. apply Lsep.
Qed.

Lemma dollar_free_append (a b : string) :
  dollar_free (a +++ b) = dollar_free a && dollar_free b.
Proof. apply all_chars_append. Qed.

Lemma dollar_free_join (sep : string) (l : list string) :
  dollar_free sep = true -> forallb dollar_free l = true ->
  dollar_free (join sep l) = true.
Proof.
  intros Hsep. induction l as [|x l IH]; [reflexivity|].
  cbn [forallb]. rewrite andb_true_iff. intros [Hx Hl].
  rewrite join_cons. destruct l as [|y l]; [assumption|].
  rewrite !dollar_free_append, Hx, Hsep. cbn [andb]. now apply IH.
Qed.

Lemma concat_singletons (l : list nat) : concat (map (fun i => [i]) l) = l.
Proof. induction l as [|x l IH]; simpl; [reflexivity | now rewrite IH]. Qed.

Lemma emits_dollars (from n : nat) :
  emits (join ", " (dollars from n)) (seq from n).
Proof.
  rewrite <- (concat_singletons (seq from n)).
  apply emits_join; [reflexivity | intros rest; reflexivity |].
  unfold dollars. generalize (seq from n) as l.
  induction l as [|i l IH]; simpl; constructor; [apply emits_dollar | exact IH].
Qed.

Lemma emits_equalities (sep : string) (from : nat) (keys : list string) :
  dollar_free sep = true -> literal sep ->
  forallb dollar_free keys = true ->
  emits (join sep (equalities from keys)) (seq from (length keys)).
Proof.
  intros Fsep Lsep Hkeys.
  rewrite <- (concat_singletons (seq from (length keys))).
  apply emits_join; [assumption | assumption |].
  revert from Hkeys. induction keys as [|k keys IH]; intros from; simpl.
  - constructor.
  - rewrite andb_true_iff. intros [Hk Hkeys]. constructor.
    + now apply emits_equality.
    + now apply IH.
Qed.

Lemma concat_blocks (k n a : nat) :
  concat (map (fun i => seq (i * k + 1) k) (seq a n)) = seq (a * k + 1) (n * k).
Proof.
  revert a. induction n as [|n IH]; intros a; simpl; [reflexivity|].
  rewrite IH, seq_app. do 2 f_equal. lia.
Qed.

Lemma emits_tuples (k n : nat) :
  emits (join ", " (tuples k n)) (seq 1 (n * k)).
Proof.
  change (seq 1 (n * k)) with (seq (0 * k + 1) (n * k)).
  rewrite <- (concat_blocks k n 0).
  apply emits_join; [reflexivity | intros rest; reflexivity |].
  unfold tuples. generalize (seq 0 n) as l.
  induction l as [|i l IH]; cbn [map]; constructor; [|exact IH].
  rewrite tuple_dollars.
  apply emits_after_free; [reflexivity|].
  rewrite <- (List.app_nil_r (seq _ k)).
  apply emits_then_literal;
    [apply emits_dollars | intros rest; reflexivity | now apply emits_free].
Qed.

(** ** Closed forms of the statements *)

Lemma insert_statement_spec (table : string) (data : object value) :
  insert_statement table data
  = ("INSERT INTO " +++ table +++ " (" +++ join ", " (Object_keys data)
       +++ ") VALUES (" +++ join ", " (dollars 1 (length data))
       +++ ") RETURNING *;",
     Object_values data).
Proof.
  unfold insert_statement. rewrite insert_collect_spec.
  unfold mapi. rewrite mapi_from_dollars.
  unfold Object_keys. now rewrite length_map.
Qed.

Lemma truthy_equalities (sep : string) (from : nat) (k : string) (ks : list string) :
  truthy (join sep (equalities from (k :: ks))) = true.
Proof.
  cbn [equalities]. rewrite join_cons.
  destruct (equalities (S from) ks); destruct k; reflexivity.
Qed.

Lemma select_statement_empty (table : string) :
  select_statement table [] = ("SELECT * FROM " +++ table +++ ";", []).
Proof. reflexivity. Qed.

Lemma select_statement_nonempty (table : string) (e : string * value)
  (where_ : object value) :
  select_statement table (e :: where_)
  = ("SELECT * FROM " +++ table +++ " WHERE "
       +++ join " AND " (equalities 1 (Object_keys (e :: where_))) +++ ";",
     Object_values (e :: where_)).
Proof.
  unfold select_statement, mapi. rewrite mapi_from_equalities0.
  change (0 + 1) with 1.
  unfold Object_keys at 1. cbn [map]. rewrite truthy_equalities.
  now rewrite append_assoc.
Qed.

Lemma update_statement_spec (table : string) (data where_ : object value) :
  update_statement table data where_
  = ("UPDATE " +++ table +++ " SET "
       +++ join ", " (equalities 1 (Object_keys data))
       +++ " WHERE "
       +++ join " AND " (equalities (length data + 1) (Object_keys where_))
       +++ ";",
     Object_values data ++ Object_values where_).
Proof.
  unfold update_statement, mapi.
  rewrite mapi_from_equalities0, mapi_from_equalities.
  unfold Object_keys. rewrite length_map.
  now replace (0 + 1 + length data) with (length data + 1) by lia.
Qed.

Lemma insertBulk_statement_spec (table : string) (first : object value)
  (dataArray : list (object value)) :
  insertBulk_statement table first dataArray
  = ("INSERT INTO " +++ table +++ " (" +++ join ", " (Object_keys first)
       +++ ") VALUES " +++ join ", " (tuples (length first) (length dataArray))
       +++ " RETURNING *;",
     flat (map (fun obj => map (fun k => get obj k) (Object_keys first)) dataArray)).
Proof.
  unfold insertBulk_statement.
  change (mapi ?f (map ?g dataArray)) with (mapi_from 0 f (map g dataArray)).
  rewrite (mapi_from_tuples (length (Object_keys first))).
  - unfold tuples, Object_keys. now rewrite !length_map.
  - apply Forall_forall. intros r Hr. apply in_map_iff in Hr.
    destruct Hr as [obj [<- _]]. apply length_map.
Qed.

(** ** The monad and the query wrapper *)

Lemma query_answers db h c text params r :
  answers db h c text params r ->
  query text params db h = (r, h ++ round_trip c text params r).
Proof.
  intros [Hc Hq].
  unfold query, bind, pool_connect, try_finally, client_query, client_release, ret.
  rewrite Hc, Hq. unfold round_trip.
  destruct r; now rewrite <- !List.app_assoc.
Qed.

Lemma query_connect_failure db h text params e :
  connect_reply db h = Thrown e ->
  query text params db h = (Thrown e, h ++ [EvConnect (Thrown e)]).
Proof.
  intros Hc. unfold query, bind, pool_connect. now rewrite Hc.
Qed.

Lemma executed_app (h h' : history) :
  executed (h ++ h') = executed h ++ executed h'.
Proof.
  induction h as [|ev h IH]; [reflexivity|].
  destruct ev; cbn [app executed]; now rewrite IH.
Qed.

Lemma driver_calls_log (h : history) label e :
  driver_calls (h ++ [EvLog label e]) = driver_calls h.
Proof. unfold driver_calls. rewrite filter_app. apply List.app_nil_r. Qed.

Lemma try_catch_query db h c text params r label generic (f : list row -> result) :
  answers db h c text params r ->
  try_catch (rows <- query text params ;; ret (f rows))
    (fun error => console_error label error ;; throw (Error generic)) db h
  = (wrapped f generic r, h ++ round_trip c text params r ++ logged label r).
Proof.
  intros H. unfold try_catch, bind at 1. rewrite (query_answers _ _ _ _ _ _ H).
  destruct r as [rows|e]; cbn [wrapped logged].
  - unfold ret. now rewrite List.app_nil_r.
  - unfold bind, console_error, throw. now rewrite <- List.app_assoc.
Qed.

(** A [try]/[catch] whose handler logs and throws [generic] never lets
    another error out. *)
Lemma try_catch_generic {A} (m : M A) label generic db h e :
  fst (try_catch m
         (fun error => console_error label error ;; throw (Error generic)) db h)
  = Thrown e ->
  e = Error generic.
Proof.
  unfold try_catch, bind, console_error, throw.
  destruct (m db h) as [[a|e'] h']; cbn [fst]; congruence.
Qed.

(** ** The identifier pattern *)

Lemma is_name_char_iff (c : ascii) : is_name_char c = true <-> pattern_char c.
Proof.
  unfold is_name_char, pattern_char, in_range.
  change (nat_of_ascii "A") with 65. change (nat_of_ascii "Z") with 90.
  change (nat_of_ascii "a") with 97. change (nat_of_ascii "z") with 122.
  change (nat_of_ascii "0") with 48. change (nat_of_ascii "9") with 57.
  rewrite !orb_true_iff, !andb_true_iff, !Nat.leb_le, Nat.eqb_eq.
  assert (U : nat_of_ascii c = 95 <-> c = "_"%char).
  { split; intros H.
    - rewrite <- (ascii_nat_embedding c), H. reflexivity.
    - now subst c. }
  rewrite U. tauto.
Qed.

Lemma name_regex_test_iff (name : string) :
  name_regex_test name = true <-> valid_identifier name.
Proof.
  unfold name_regex_test, valid_identifier. split.
  - destruct name as [|c s]; [discriminate|]. cbn [truthy andb].
    revert c. induction s as [|d s IH]; intros c; cbn [all_chars];
      rewrite andb_true_iff; intros [Hc Hs].
    + apply one_char. now apply is_name_char_iff.
    + apply more_chars; [now apply is_name_char_iff | now apply IH].
  - induction 1 as [c Hc | c s Hc _ IH]; cbn [truthy all_chars andb].
    + apply is_name_char_iff in Hc. now rewrite Hc.
    + apply is_name_char_iff in Hc. rewrite Hc. cbn [andb].
      destruct s; [discriminate | exact IH].
Qed.

Lemma name_regex_test_false_iff (name : string) :
  name_regex_test name = false <-> ~ valid_identifier name.
Proof.
  rewrite <- name_regex_test_iff. now destruct (name_regex_test name).
Qed.

(** ** Row-major positions *)

Lemma nth_concat_uniform {A} (k : nat) (rows : list (list A)) (i j : nat) (d : A) :
  Forall (fun r => length r = k) rows ->
  i < length rows -> j < k ->
  nth (i * k + j) (concat rows) d = nth j (nth i rows []) d.
Proof.
  intros H. revert i. induction H as [|r rows Hr _ IH]; intros i Hi Hj.
  - simpl in Hi. lia.
  - cbn [concat]. destruct i as [|i].
    + cbn [nth]. rewrite Nat.mul_0_l, Nat.add_0_l. apply app_nth1. lia.
    + cbn [nth]. simpl in Hi.
      rewrite app_nth2 by (rewrite Hr; cbn [Nat.mul]; lia).
      rewrite Hr. replace (S i * k + j - k) with (i * k + j) by (cbn [Nat.mul]; lia).
      apply IH; lia.
Qed.

Lemma bulk_value_at (keys : list string) (dataArray : list (object value))
  (i j : nat) :
  i < length dataArray -> j < length keys ->
  nth (i * length keys + j)
      (flat (map (fun obj => map (fun k => get obj k) keys) dataArray)) VUndefined
  = get (nth i dataArray []) (nth j keys "").
Proof.
  intros Hi Hj. unfold flat.
  rewrite nth_concat_uniform.
  - rewrite (nth_indep _ [] (map (fun k => get (@nil (string * value)) k) keys))
      by now rewrite length_map.
    rewrite (map_nth (fun obj => map (fun k => get obj k) keys)).
    rewrite (nth_indep _ VUndefined (get (nth i dataArray []) ""))
      by now rewrite length_map.
    apply (map_nth (fun k => get (nth i dataArray []) k)).
  - apply Forall_forall. intros r Hr. apply in_map_iff in Hr.
    destruct Hr as [obj [<- _]]. apply length_map.
  - now rewrite length_map.
  - assumption.
Qed.

Lemma length_bulk_values (keys : list string) (dataArray : list (object value)) :
  length (flat (map (fun obj => map (fun k => get obj k) keys) dataArray))
  = length dataArray * length keys.
Proof.
  unfold flat.
  induction dataArray as [|r l IH]; cbn [map concat length]; [reflexivity|].
  rewrite length_app, IH, length_map. lia.
Qed.

Lemma tuple_at (k n i : nat) :
  i < n -> nth i (tuples k n) "" = tuple k i.
Proof.
  intros Hi. unfold tuples.
  rewrite (nth_indep _ "" (tuple k 0)) by now rewrite length_map, length_seq.
  rewrite (map_nth (tuple k)), seq_nth by assumption. reflexivity.
Qed.

(** ** The connection lifecycle *)

(** C9: every call of the query wrapper asks the pool for a connection once;
    on the connection [c] it is handed, exactly one statement (the given
    text with the given parameters) is executed, and [c] is released next,
    whether the server answered with rows or threw; only after the release
    are the rows returned or the error propagated. *)
Theorem query_acquires_executes_releases :
  forall db h text params c,
    connect_reply db h = Returned c ->
    let reply := query_reply db (h ++ [EvConnect (Returned c)]) c text params in
    query text params db h
    = (reply,
       h ++ [EvConnect (Returned c); EvQuery c text params reply; EvRelease c])
    /\ executed (snd (query text params db h)) = executed h ++ [(text, params)].
Proof.
  intros db h text params c Hc reply.
  assert (E : query text params db h
              = (reply, h ++ round_trip c text params reply))
    by (apply query_answers; now split).
  split; [exact E|]. rewrite E. cbn [snd]. now rewrite executed_app.
Qed.

Lemma query_acquires_executes_releases_witness :
  query "SELECT 1;" [] (steady 3 [[("?column?", VNum 1)]]) []
  = (Returned [[("?column?", VNum 1)]],
     [EvConnect (Returned 3);
      EvQuery 3 "SELECT 1;" [] (Returned [[("?column?", VNum 1)]]);
      EvRelease 3])
  /\ query "SELECT 1;" [] (rejecting 3 (DriverError "57P01")) []
     = (Thrown (DriverError "57P01"),
        [EvConnect (Returned 3);
         EvQuery 3 "SELECT 1;" [] (Thrown (DriverError "57P01"));
         EvRelease 3]).
Proof.
  split.
  - apply (query_acquires_executes_releases
             (steady 3 [[("?column?", VNum 1)]]) [] "SELECT 1;" [] 3).
    reflexivity.
  - apply (query_acquires_executes_releases
             (rejecting 3 (DriverError "57P01")) [] "SELECT 1;" [] 3).
    reflexivity.
Defined.

(** ** Single-row insert *)



(** ** Update *)



(** ** Select *)



(** ** Bulk insert *)

(** C3: for a non-empty array of n rows, with k the number of keys of the
    first row (k may be 0), [insertIntoTable] builds and executes one
    multi-row [INSERT ... VALUES (...), (...) RETURNING *;] and hands back
    all the rows the server returned (or logs the server's error and throws
    its own); the statement binds n*k values; tuple i of the statement holds
    the placeholders [$(i*k+j+1)] for j = 0..k-1, and the bound value at
    position [i*k+j] is what row i holds under the j-th key of the first
    row. *)
Theorem insertIntoTable_bulk :
  forall table (first : object value) (rest : list (object value)) db h,
    let dataArray := first :: rest in
    let keys := Object_keys first in
    let k := length keys in
    let n := length dataArray in
    let text :=
      "INSERT INTO " +++ table +++ " (" +++ join ", " keys +++ ") VALUES "
        +++ join ", " (tuples k n) +++ " RETURNING *;" in
    let params := flat (map (fun obj => map (fun key => get obj key) keys) dataArray) in
    insertBulk_statement table first dataArray = (text, params)
    /\ (forall c r,
           answers db h c text params r ->
           insertIntoTable table (DataArray dataArray) db h
           = (wrapped RRows ("Failed to insert into '" +++ table +++ "'.") r,
              h ++ round_trip c text params r
                ++ logged ("Error inserting into '" +++ table +++ "':") r))
    /\ length params = n * k
    /\ (forall i, i < n -> nth i (tuples k n) "" = tuple k i)
    /\ (forall i j,
           j < k ->
           nth j (map (fun j => "$" +++ number_to_string (i * k + j + 1)) (seq 0 k)) ""
           = "$" +++ number_to_string (i * k + j + 1))
    /\ (forall i j,
           i < n -> j < k ->
           nth (i * k + j) params VUndefined
           = get (nth i dataArray []) (nth j keys "")).
Proof.
  intros table first rest db h dataArray keys k n text params.
  assert (K : length first = k)
    by (unfold k, keys, Object_keys; now rewrite length_map).
  assert (S : insertBulk_statement table first dataArray = (text, params)).
  { rewrite insertBulk_statement_spec. rewrite K. reflexivity. }
  split; [exact S|]. split; [|split; [|split; [|split]]].
  - intros c r H. unfold insertIntoTable, insertBulk.
    cbv delta [dataArray] iota. fold dataArray. rewrite S. cbv iota.
    now apply try_catch_query.
  - unfold params, n, k. apply length_bulk_values.
  - intros i Hi. now apply tuple_at.
  - intros i j Hj.
    rewrite (nth_indep _ "" ((fun j => "$" +++ number_to_string (i * k + j + 1)) 0))
      by now rewrite length_map, length_seq.
    rewrite (map_nth (fun j => "$" +++ number_to_string (i * k + j + 1))).
    now rewrite seq_nth.
  - intros i j Hi Hj. now apply bulk_value_at.
Qed.

Lemma insertIntoTable_bulk_witness :
  (insertIntoTable "t"
     (DataArray [[("a", VNum 1); ("b", VNum 2)]; [("a", VNum 3); ("b", VNum 4)]])
     (steady 5 [[("a", VNum 1); ("b", VNum 2)]; [("a", VNum 3); ("b", VNum 4)]]) []
   = (Returned
        (RRows [[("a", VNum 1); ("b", VNum 2)]; [("a", VNum 3); ("b", VNum 4)]]),
      [EvConnect (Returned 5);
       EvQuery 5 "INSERT INTO t (a, b) VALUES ($1, $2), ($3, $4) RETURNING *;"
         [VNum 1; VNum 2; VNum 3; VNum 4]
         (Returned [[("a", VNum 1); ("b", VNum 2)]; [("a", VNum 3); ("b", VNum 4)]]);
       EvRelease 5]))
  /\ nth 1 (tuples 2 2) "" = "($3, $4)"
  /\ nth 1 (map (fun j => "$" +++ number_to_string (1 * 2 + j + 1)) (seq 0 2)) ""
     = "$4"
  /\ nth (1 * 2 + 1) [VNum 1; VNum 2; VNum 3; VNum 4] VUndefined = VNum 4
  /\ (insertIntoTable "t" (DataArray [[]; [("a", VNum 1)]]) (steady 5 []) []
      = (Returned (RRows []),
         [EvConnect (Returned 5);
          EvQuery 5 "INSERT INTO t () VALUES (), () RETURNING *;" [] (Returned []);
          EvRelease 5])).
Proof.
  destruct (insertIntoTable_bulk "t" [("a", VNum 1); ("b", VNum 2)]
              [[("a", VNum 3); ("b", VNum 4)]]
              (steady 5 [[("a", VNum 1); ("b", VNum 2)];
                         [("a", VNum 3); ("b", VNum 4)]])
              [])
    as (_ & Hrun & _ & Htuple & Hdollar & Hvalue).
  destruct (insertIntoTable_bulk "t" [] [[("a", VNum 1)]] (steady 5 []) [])
    as (_ & Hnokeys & _).
  split; [|split; [|split; [|split]]].
  - apply (Hrun 5 (Returned [[("a", VNum 1); ("b", VNum 2)];
                             [("a", VNum 3); ("b", VNum 4)]])).
    split; reflexivity.
  - apply (Htuple 1). simpl. lia.
  - apply (Hdollar 1 1). simpl. lia.
  - apply (Hvalue 1 1); simpl; lia.
  - apply (Hnokeys 5 (Returned [])). split; reflexivity.
Defined.

(** ** Identifier validation *)

(** C6: for a name matching [^[A-Za-z0-9_]+$], [createDatabase], [dropTable]
    and [dropDatabase] build [CREATE DATABASE name], [DROP TABLE IF EXISTS
    name] and [DROP DATABASE IF EXISTS name] and execute them; for any other
    name the builder throws its validation error and the operation fails
    having made no call to the driver: the history gains only the log entry
    that shows the validation error. *)
Theorem name_validation :
  forall name db h,
    (valid_identifier name ->
     forall c r,
       (answers db h c ("CREATE DATABASE " +++ name) [] r ->
        createDatabase name db h
        = (wrapped RRows "Failed to execute database query." r,
           h ++ round_trip c ("CREATE DATABASE " +++ name) [] r
             ++ logged "Database query error:" r))
       /\ (answers db h c ("DROP TABLE IF EXISTS " +++ name) [] r ->
           dropTable name db h
           = (wrapped RRows "Failed to execute database query." r,
              h ++ round_trip c ("DROP TABLE IF EXISTS " +++ name) [] r
                ++ logged "Database query error:" r))
       /\ (answers db h c ("DROP DATABASE IF EXISTS " +++ name) [] r ->
           dropDatabase name db h
           = (wrapped RRows "Failed to execute database query." r,
              h ++ round_trip c ("DROP DATABASE IF EXISTS " +++ name) [] r
                ++ logged "Database query error:" r)))
    /\
    (~ valid_identifier name ->
     let invalid_name :=
       Error "Invalid name provided. Only alphanumeric characters and underscores are allowed." in
     createDB name db h = (Thrown (Error "Invalid database name"), h)
     /\ drop "table" name db h = (Thrown invalid_name, h)
     /\ drop "database" name db h = (Thrown invalid_name, h)
     /\ createDatabase name db h
        = (Thrown (Error "Failed to execute database query."),
           h ++ [EvLog "Database query error:" (Error "Invalid database name")])
     /\ dropTable name db h
        = (Thrown (Error "Failed to execute database query."),
           h ++ [EvLog "Database query error:" invalid_name])
     /\ dropDatabase name db h
        = (Thrown (Error "Failed to execute database query."),
           h ++ [EvLog "Database query error:" invalid_name])
     /\ driver_calls (snd (createDatabase name db h)) = driver_calls h
     /\ driver_calls (snd (dropTable name db h)) = driver_calls h
     /\ driver_calls (snd (dropDatabase name db h)) = driver_calls h).
Proof.
  intros name db h. split.
  - intros V c r. apply name_regex_test_iff in V.
    repeat split; intros H.
    + unfold createDatabase, createDB. rewrite V. cbn [negb].
      now apply try_catch_query.
    + unfold dropTable, drop. rewrite V. cbn [negb].
      change (String.eqb "table" "table") with true. cbv iota.
      now apply try_catch_query.
    + unfold dropDatabase, drop. rewrite V. cbn [negb].
      change (String.eqb "database" "table") with false.
      change (String.eqb "database" "database") with true. cbv iota.
      now apply try_catch_query.
  - intros V invalid_name. apply name_regex_test_false_iff in V.
    unfold createDatabase, dropTable, dropDatabase, createDB, drop, try_catch.
    rewrite V. cbn [negb].
    repeat split; apply driver_calls_log.
Qed.

Lemma name_validation_witness :
  dropTable "order_items_2" (steady 1 []) []
  = (Returned (RRows []),
     [EvConnect (Returned 1);
      EvQuery 1 "DROP TABLE IF EXISTS order_items_2" [] (Returned []);
      EvRelease 1])
  /\ dropTable "users; DROP DATABASE prod" (steady 1 []) []
     = (Thrown (Error "Failed to execute database query."),
        [EvLog "Database query error:"
           (Error "Invalid name provided. Only alphanumeric characters and underscores are allowed.")]).
Proof.
  split.
  - destruct (name_validation "order_items_2" (steady 1 []) []) as [Hvalid _].
    assert (V : valid_identifier "order_items_2")
      by (apply name_regex_test_iff; reflexivity).
    destruct (Hvalid V 1 (Returned [])) as (_ & Hdrop & _).
    apply Hdrop. split; reflexivity.
  - destruct (name_validation "users; DROP DATABASE prod" (steady 1 []) [])
      as [_ Hinvalid].
    assert (V : ~ valid_identifier "users; DROP DATABASE prod")
      by (apply name_regex_test_false_iff; reflexivity).
    destruct (Hinvalid V) as (_ & _ & _ & _ & Hdrop & _).
    exact Hdrop.
Defined.

(** ** Column alterations *)

Lemma alterations_of_length (ch : changes) :
  length (alterations_of ch) = change_count ch.
Proof.
  unfold alterations_of, change_count, Object_entries.
  destruct (add ch), (drop_ ch), (modify ch);
    cbn [app]; rewrite ?length_app, ?length_map; cbn [length]; lia.
Qed.

(** C7: an alter-table request whose add, drop and modify entries number
    zero in all is refused with the validation error before any call to the
    driver; [addColumns(table, {})], [modifyColumns(table, {})] and
    [dropColumn(table, [])] all fail that way, the history gaining at most
    the log entry that shows the validation error. *)
Theorem empty_alteration_rejected :
  forall table db h,
    let no_alterations := Error "No valid alterations provided." in
    (forall ch, change_count ch = 0 ->
                alterTable table ch db h = (Thrown no_alterations, h))
    /\ addColumns table [] db h
       = (Thrown (Error ("Failed to add '[object Object]' to '" +++ table +++ "'.")),
          h ++ [EvLog ("Failed to add '[object Object]' to '" +++ table +++ "':")
                  no_alterations])
    /\ modifyColumns table [] db h
       = (Thrown (Error "Failed to execute database query."),
          h ++ [EvLog "Database query error:" no_alterations])
    /\ dropColumn table (ColumnArray []) db h = (Thrown no_alterations, h)
    /\ driver_calls (snd (addColumns table [] db h)) = driver_calls h
    /\ driver_calls (snd (modifyColumns table [] db h)) = driver_calls h.
Proof.
  intros table db h no_alterations.
  split; [|repeat split; apply driver_calls_log].
  intros ch Hch. unfold alterTable.
  now rewrite alterations_of_length, Hch.
Qed.

Lemma empty_alteration_rejected_witness :
  alterTable "users" {| add := Some []; drop_ := Some []; modify := None |}
    (steady 1 []) []
  = (Thrown (Error "No valid alterations provided."), []).
Proof.
  destruct (empty_alteration_rejected "users" (steady 1 []) []) as [Halter _].
  apply Halter. reflexivity.
Defined.

(** C10: [dropColumn] given a single column name [c] behaves, on every
    database and at every history, exactly as [dropColumn] given the
    one-element list of [c]: both build [ALTER TABLE table DROP COLUMN c;],
    execute it when the pool hands out a connection and hand back or throw
    what the server answers, and both throw the pool's error when it refuses
    the connection. *)
Theorem dropColumn_single_name :
  forall table column db h,
    let text := "ALTER TABLE " +++ table +++ " DROP COLUMN " +++ column +++ ";" in
    dropColumn table (ColumnName column) db h
    = dropColumn table (ColumnArray [column]) db h
    /\ (forall cl r,
           answers db h cl text [] r ->
           dropColumn table (ColumnName column) db h
           = (match r with
              | Returned rows => Returned (RRows rows)
              | Thrown e => Thrown e
              end,
              h ++ round_trip cl text [] r))
    /\ (forall e,
           connect_reply db h = Thrown e ->
           dropColumn table (ColumnName column) db h
           = (Thrown e, h ++ [EvConnect (Thrown e)])).
Proof.
  intros table column db h text. split; [reflexivity|].
  change (dropColumn table (ColumnName column) db h)
    with ((rows <- query text [] ;; ret (RRows rows)) db h).
  unfold bind. split.
  - intros cl r H. rewrite (query_answers _ _ _ _ _ _ H).
    destruct r; reflexivity.
  - intros e H. now rewrite (query_connect_failure _ _ _ _ _ H).
Qed.

Lemma dropColumn_single_name_witness :
  dropColumn "users" (ColumnName "age") (steady 6 []) []
  = (Returned (RRows []),
     [EvConnect (Returned 6);
      EvQuery 6 "ALTER TABLE users DROP COLUMN age;" [] (Returned []);
      EvRelease 6])
  /\ dropColumn "users" (ColumnName "age")
       (unreachable (DriverError "ECONNREFUSED")) []
     = (Thrown (DriverError "ECONNREFUSED"),
        [EvConnect (Thrown (DriverError "ECONNREFUSED"))]).
Proof.
  split.
  - destruct (dropColumn_single_name "users" "age" (steady 6 []) [])
      as (_ & Hanswered & _).
    apply (Hanswered 6 (Returned [])). split; reflexivity.
  - destruct (dropColumn_single_name "users" "age"
                (unreachable (DriverError "ECONNREFUSED")) [])
      as (_ & _ & Hrefused).
    apply Hrefused. reflexivity.
Defined.

(** ** Error wrapping *)

(** Nine of the ten exported functions let out no error but their own. *)
Lemma wrapped_operations_throw_generic db h e :
  (forall table data where_,
      fst (updateTable table data where_ db h) = Thrown e ->
      e = Error "Failed to update the table.")
  /\ (forall table columns,
         fst (createTable table columns db h) = Thrown e ->
         e = Error "Failed to execute database query.")
  /\ (forall table data,
         fst (insertIntoTable table data db h) = Thrown e ->
         e = Error ("Failed to insert into '" +++ table +++ "'."))
  /\ (forall table where_,
         fst (selectFromTable table where_ db h) = Thrown e ->
         e = Error "Failed to execute database query.")
  /\ (forall name,
         fst (dropTable name db h) = Thrown e ->
         e = Error "Failed to execute database query.")
  /\ (forall name,
         fst (dropDatabase name db h) = Thrown e ->
         e = Error "Failed to execute database query.")
  /\ (forall name,
         fst (createDatabase name db h) = Thrown e ->
         e = Error "Failed to execute database query.")
  /\ (forall table columns,
         fst (modifyColumns table columns db h) = Thrown e ->
         e = Error "Failed to execute database query.")
  /\ (forall table columns,
         has_own columns "toString" = false ->
         fst (addColumns table columns db h) = Thrown e ->
         e = Error ("Failed to add '[object Object]' to '" +++ table +++ "'.")).
Proof.
  repeat split; intros; try (eapply try_catch_generic; eassumption).
  revert H0. unfold addColumns, try_catch, object_in_template. rewrite H.
  destruct (alterTable _ _ db h) as [[a|e'] h']; cbn; congruence.
Qed.

(** C8: [dropColumn] has no [try]/[catch]: when the statement fails, or when
    the column list is empty, the original error reaches the caller and
    nothing is logged, whereas [modifyColumns] and [addColumns], which make
    the same [alterTable] call, log the original error and throw their own. *)
Theorem dropColumn_lets_the_original_error_out :
  dropColumn "users" (ColumnName "age") (rejecting 1 (DriverError "42703")) []
  = (Thrown (DriverError "42703"),
     [EvConnect (Returned 1);
      EvQuery 1 "ALTER TABLE users DROP COLUMN age;" []
        (Thrown (DriverError "42703"));
      EvRelease 1])
  /\ dropColumn "users" (ColumnArray []) (rejecting 1 (DriverError "42703")) []
     = (Thrown (Error "No valid alterations provided."), [])
  /\ modifyColumns "users" [("age", "bigint")]
       (rejecting 1 (DriverError "42703")) []
     = (Thrown (Error "Failed to execute database query."),
        [EvConnect (Returned 1);
         EvQuery 1 "ALTER TABLE users ALTER COLUMN age TYPE bigint;" []
           (Thrown (DriverError "42703"));
         EvRelease 1;
         EvLog "Database query error:" (DriverError "42703")]).
Proof. repeat split. Qed.

(** ** Placeholders against bound values *)

Lemma emits_then_free_literal (a b : string) (ns : list nat) :
  emits a ns -> literal b -> dollar_free b = true -> emits (a +++ b) ns.
Proof.
  intros Ha Lb Fb. rewrite <- (List.app_nil_r ns).
  apply emits_then_literal; [assumption | assumption | now apply emits_free].
Qed.

(** Peel a [$]-free prefix off the text under [emits]. *)
Ltac free_prefix :=
  apply emits_after_free;
  [ first [ reflexivity | assumption | now apply dollar_free_join ] | ].

(** Close [emits (a +++ b) ns] where [b] is a closing literal. *)
Ltac closing_literal tac :=
  apply emits_then_free_literal;
  [ tac | intros ?; reflexivity | reflexivity ].

(** When neither the table name nor any column key contains a [$], the
    placeholders read off the text of every statement built by [insert],
    [select], [update] and [insertBulk] are exactly 1, 2, ..., n in that
    order, n being the number of bound values. *)
Lemma dollar_free_statements_number_their_values :
  forall table,
    dollar_free table = true ->
    (forall data : object value,
        forallb dollar_free (Object_keys data) = true ->
        placeholders_of (fst (insert_statement table data))
        = seq 1 (length (snd (insert_statement table data))))
    /\ (forall where_ : object value,
           forallb dollar_free (Object_keys where_) = true ->
           placeholders_of (fst (select_statement table where_))
           = seq 1 (length (snd (select_statement table where_))))
    /\ (forall data where_ : object value,
           forallb dollar_free (Object_keys data) = true ->
           forallb dollar_free (Object_keys where_) = true ->
           placeholders_of (fst (update_statement table data where_))
           = seq 1 (length (snd (update_statement table data where_))))
    /\ (forall (first : object value) (rest : list (object value)),
           forallb dollar_free (Object_keys first) = true ->
           placeholders_of (fst (insertBulk_statement table first (first :: rest)))
           = seq 1 (length (snd (insertBulk_statement table first (first :: rest))))).
Proof.
  intros table Ht. split; [|split; [|split]].
  - intros data Hk. rewrite insert_statement_spec. cbn [fst snd].
    unfold Object_values. rewrite length_map.
    apply emits_whole. do 5 free_prefix.
    closing_literal ltac:(apply emits_dollars).
  - intros where_ Hk. destruct where_ as [|e where_].
    + rewrite select_statement_empty. cbn [fst snd length seq].
      apply emits_whole. apply emits_free.
      rewrite !dollar_free_append, Ht. reflexivity.
    + rewrite select_statement_nonempty. cbn [fst snd].
      unfold Object_values. rewrite length_map.
      replace (length (e :: where_)) with (length (Object_keys (e :: where_)))
        by apply length_map.
      apply emits_whole. do 3 free_prefix.
      closing_literal
        ltac:(apply emits_equalities;
              [reflexivity | intros ?; reflexivity | assumption]).
  - intros data where_ Hd Hw. rewrite update_statement_spec. cbn [fst snd].
    unfold Object_values. rewrite length_app, !length_map.
    rewrite seq_app. apply emits_whole. do 3 free_prefix.
    apply emits_then_literal.
    + replace (length data) with (length (Object_keys data)) by apply length_map.
      apply emits_equalities;
        [reflexivity | intros ?; reflexivity | assumption].
    + intros ?. reflexivity.
    + free_prefix.
      replace (1 + length data) with (length data + 1) by lia.
      replace (length where_) with (length (Object_keys where_))
        by apply length_map.
      closing_literal
        ltac:(apply emits_equalities;
              [reflexivity | intros ?; reflexivity | assumption]).
  - intros first rest Hk. rewrite insertBulk_statement_spec. cbn [fst snd].
    rewrite length_bulk_values.
    replace (length (Object_keys first)) with (length first)
      by (symmetry; apply length_map).
    apply emits_whole. do 5 free_prefix.
    closing_literal ltac:(apply emits_tuples).
Qed.

Lemma name_char_not_dollar (c : ascii) :
  is_name_char c = true -> negb (Ascii.eqb c dollar) = true.
Proof.
  destruct (Ascii.eqb_spec c dollar) as [->|_]; [|reflexivity].
  vm_compute. discriminate.
Qed.

Lemma valid_identifier_dollar_free (name : string) :
  valid_identifier name -> dollar_free name = true.
Proof.
  intros V. apply name_regex_test_iff in V.
  unfold name_regex_test in V. apply andb_true_iff in V. destruct V as [_ V].
  apply (all_chars_impl is_name_char); [apply name_char_not_dollar | exact V].
Qed.

Lemma valid_identifiers_dollar_free (names : list string) :
  Forall valid_identifier names -> forallb dollar_free names = true.
Proof.
  induction 1 as [|name names V _ IH]; cbn [forallb]; [reflexivity|].
  now rewrite (valid_identifier_dollar_free name V), IH.
Qed.

(** C1: with a table name and column keys that are safe identifiers
    (letters, digits and underscores), every statement built by [insert],
    [select], [update] and [insertBulk] holds as many positional
    placeholders as it binds values, and the placeholders read off its text
    are exactly $1, $2, ..., $n in that order, with no gap and no repeat. *)
Theorem placeholders_number_the_bound_values :
  forall table,
    valid_identifier table ->
    (forall data : object value,
        Forall valid_identifier (Object_keys data) ->
        placeholders_of (fst (insert_statement table data))
        = seq 1 (length (snd (insert_statement table data))))
    /\ (forall where_ : object value,
           Forall valid_identifier (Object_keys where_) ->
           placeholders_of (fst (select_statement table where_))
           = seq 1 (length (snd (select_statement table where_))))
    /\ (forall data where_ : object value,
           Forall valid_identifier (Object_keys data) ->
           Forall valid_identifier (Object_keys where_) ->
           placeholders_of (fst (update_statement table data where_))
           = seq 1 (length (snd (update_statement table data where_))))
    /\ (forall (first : object value) (rest : list (object value)),
           Forall valid_identifier (Object_keys first) ->
           placeholders_of (fst (insertBulk_statement table first (first :: rest)))
           = seq 1 (length (snd (insertBulk_statement table first (first :: rest))))).
Proof.
  intros table Vt.
  destruct (dollar_free_statements_number_their_values table
              (valid_identifier_dollar_free table Vt))
    as (Hinsert & Hselect & Hupdate & Hbulk).
  split; [|split; [|split]].
  - intros data V. apply Hinsert. now apply valid_identifiers_dollar_free.
  - intros where_ V. apply Hselect. now apply valid_identifiers_dollar_free.
  - intros data where_ Vd Vw.
    apply Hupdate; now apply valid_identifiers_dollar_free.
  - intros first rest V. apply Hbulk. now apply valid_identifiers_dollar_free.
Qed.

Lemma placeholders_number_the_bound_values_witness :
  placeholders_of
    (fst (insert_statement "t" [("a", VNum 1); ("b", VNum 2)]))
  = [1; 2]
  /\ placeholders_of (fst (select_statement "t" [("a", VNum 1)])) = [1]
  /\ placeholders_of
       (fst (update_statement "t" [("a", VNum 5)] [("id", VNum 1); ("b", VNull)]))
     = [1; 2; 3]
  /\ placeholders_of
       (fst (insertBulk_statement "t" [("a", VNum 1); ("b", VNum 2)]
               [[("a", VNum 1); ("b", VNum 2)]; [("a", VNum 3); ("b", VNum 4)]]))
     = [1; 2; 3; 4].
Proof.
  assert (V : forall name, name_regex_test name = true -> valid_identifier name)
    by (intros name; apply name_regex_test_iff).
  destruct (placeholders_number_the_bound_values "t" (V "t" eq_refl))
    as (Hinsert & Hselect & Hupdate & Hbulk).
  split; [|split; [|split]].
  - apply (Hinsert [("a", VNum 1); ("b", VNum 2)]).
    repeat constructor; apply V; reflexivity.
  - apply (Hselect [("a", VNum 1)]).
    repeat constructor; apply V; reflexivity.
  - apply (Hupdate [("a", VNum 5)] [("id", VNum 1); ("b", VNull)]);
      repeat constructor; apply V; reflexivity.
  - apply (Hbulk [("a", VNum 1); ("b", VNum 2)] [[("a", VNum 3); ("b", VNum 4)]]).
    repeat constructor; apply V; reflexivity.
Defined.

(** The premise on the keys is needed: a key that spells a placeholder,
    which is no safe identifier, shows up among the placeholders of the
    text: [select("t", {"$2": 1})] builds [SELECT * FROM t WHERE $2 = $1;]. *)
Lemma placeholders_follow_the_keys :
  ~ valid_identifier "$2"
  /\ fst (select_statement "t" [("$2", VNum 1)]) = "SELECT * FROM t WHERE $2 = $1;"
  /\ snd (select_statement "t" [("$2", VNum 1)]) = [VNum 1]
  /\ placeholders_of (fst (select_statement "t" [("$2", VNum 1)])) = [2; 1].
Proof.
  split; [apply name_regex_test_false_iff; reflexivity | repeat split].
Qed.

(** ** Driver traffic of the exported functions *)

Lemma driver_calls_app (a b : history) :
  driver_calls (a ++ b) = driver_calls a ++ driver_calls b.
Proof. apply filter_app. Qed.

Lemma silent_ret {A} (a : A) : silent (ret a).
Proof. intros db h. exists []. now rewrite List.app_nil_r. Qed.

Lemma silent_throw {A} (e : error) : silent (@throw A e).
Proof. intros db h. exists []. now rewrite List.app_nil_r. Qed.

Lemma silent_console_error label e : silent (console_error label e).
Proof. intros db h. exists [EvLog label e]. split; reflexivity. Qed.

Lemma silent_bind {A B} (m : M A) (k : A -> M B) :
  silent m -> (forall a, silent (k a)) -> silent (bind m k).
Proof.
  intros Hm Hk db h. unfold bind.
  destruct (Hm db h) as [l [E D]].
  destruct (m db h) as [[a|e] h']; cbn [snd] in E; subst h'.
  - destruct (Hk a db (h ++ l)) as [l' [E' D']].
    exists (l ++ l'). rewrite E', <- List.app_assoc. split; [reflexivity|].
    now rewrite driver_calls_app, D, D'.
  - exists l. now split.
Qed.

Lemma silent_object_in_template {A} (o : object A) : silent (object_in_template o).
Proof.
  unfold object_in_template. destruct (has_own o "toString");
    [apply silent_throw | apply silent_ret].
Qed.

Lemma one_trip_silent {A} (m : M A) : silent m -> one_trip m.
Proof.
  intros Hm db h. destruct (Hm db h) as [l [E D]].
  exists l. split; [assumption|]. rewrite D. constructor.
Qed.

Lemma one_trip_query text params : one_trip (query text params).
Proof.
  intros db h. destruct (connect_reply db h) as [c|e] eqn:Hc.
  - exists (round_trip c text params
              (query_reply db (h ++ [EvConnect (Returned c)]) c text params)).
    rewrite (query_answers db h c text params _ (conj Hc eq_refl)).
    split; [reflexivity | apply traffic_trip].
  - exists [EvConnect (Thrown e)].
    rewrite (query_connect_failure db h text params e Hc).
    split; [reflexivity | apply traffic_refused].
Qed.

Lemma one_trip_bind {A B} (m : M A) (k : A -> M B) :
  one_trip m -> (forall a, silent (k a)) -> one_trip (bind m k).
Proof.
  intros Hm Hk db h. unfold bind.
  destruct (Hm db h) as [l [E T]].
  destruct (m db h) as [[a|e] h']; cbn [snd] in E; subst h'.
  - destruct (Hk a db (h ++ l)) as [l' [E' D']].
    exists (l ++ l'). rewrite E', <- List.app_assoc. split; [reflexivity|].
    now rewrite driver_calls_app, D', List.app_nil_r.
  - exists l. now split.
Qed.

Lemma one_trip_try_catch {A} (m : M A) (handler : error -> M A) :
  one_trip m -> (forall e, silent (handler e)) -> one_trip (try_catch m handler).
Proof.
  intros Hm Hh db h. unfold try_catch.
  destruct (Hm db h) as [l [E T]].
  destruct (m db h) as [[a|e] h']; cbn [snd] in E; subst h'.
  - exists l. now split.
  - destruct (Hh e db (h ++ l)) as [l' [E' D']].
    exists (l ++ l'). rewrite E', <- List.app_assoc. split; [reflexivity|].
    now rewrite driver_calls_app, D', List.app_nil_r.
Qed.

Lemma silent_log_then_throw {A} label e e' :
  silent (console_error label e ;; @throw A e').
Proof.
  apply silent_bind; [apply silent_console_error | intros _; apply silent_throw].
Qed.

(** Settle [one_trip] for a builder: a query followed by a pure return, or
    a throw before any query. *)
Ltac builder_trip :=
  repeat match goal with
         | |- one_trip (if ?b then _ else _) => destruct b
         | |- one_trip (match ?l with [] => _ | _ :: _ => _ end) => destruct l
         | |- one_trip (let '(_, _) := ?p in _) => destruct p
         | |- one_trip (bind (query _ _) _) =>
             apply one_trip_bind; [apply one_trip_query | intros ?; apply silent_ret]
         | |- one_trip (throw _) => apply one_trip_silent, silent_throw
         | |- one_trip (ret _) => apply one_trip_silent, silent_ret
         end.

Lemma one_trip_alterTable table ch : one_trip (alterTable table ch).
Proof. unfold alterTable. builder_trip. Qed.

Lemma one_trip_drop type name : one_trip (drop type name).
Proof. unfold drop. builder_trip. Qed.

(** X1: whatever the arguments and whatever the database does, a call of
    any exported function (and of [copy]) only extends the history, and the
    driver calls it adds are none at all, one refused [pool.connect()], or
    exactly one connect, one statement and the release of that connection. *)
Theorem exported_functions_make_one_trip :
  (forall table data where_, one_trip (updateTable table data where_))
  /\ (forall table columns, one_trip (createTable table columns))
  /\ (forall table data, one_trip (insertIntoTable table data))
  /\ (forall table where_, one_trip (selectFromTable table where_))
  /\ (forall name, one_trip (dropTable name))
  /\ (forall name, one_trip (dropDatabase name))
  /\ (forall table column, one_trip (dropColumn table column))
  /\ (forall name, one_trip (createDatabase name))
  /\ (forall table columns, one_trip (modifyColumns table columns))
  /\ (forall table columns, one_trip (addColumns table columns))
  /\ (forall table file format header, one_trip (copy table file format header)).
Proof.
  repeat split; intros.
  - apply one_trip_try_catch; [|intros; apply silent_log_then_throw].
    unfold update. builder_trip.
  - apply one_trip_try_catch; [|intros; apply silent_log_then_throw].
    unfold create. builder_trip.
  - apply one_trip_try_catch; [|intros; apply silent_log_then_throw].
    destruct data; [unfold insert | unfold insertBulk]; builder_trip.
  - apply one_trip_try_catch; [|intros; apply silent_log_then_throw].
    unfold select. builder_trip.
  - apply one_trip_try_catch; [|intros; apply silent_log_then_throw].
    apply one_trip_drop.
  - apply one_trip_try_catch; [|intros; apply silent_log_then_throw].
    apply one_trip_drop.
  - apply one_trip_alterTable.
  - apply one_trip_try_catch; [|intros; apply silent_log_then_throw].
    unfold createDB. builder_trip.
  - apply one_trip_try_catch; [|intros; apply silent_log_then_throw].
    apply one_trip_alterTable.
  - apply one_trip_try_catch; [apply one_trip_alterTable|].
    intros e. apply silent_bind; [apply silent_object_in_template|].
    intros shown. apply silent_bind; [apply silent_console_error|].
    intros _. apply silent_bind; [apply silent_object_in_template|].
    intros shown'. apply silent_throw.
  - unfold copy. builder_trip.
Qed.

(** ** Refused connections *)

(** X2: when [pool.connect()] throws, the query wrapper throws that same
    error; no statement is executed and nothing is released, the history
    gaining only the refused connect. *)
Theorem query_without_connection :
  forall db h text params e,
    connect_reply db h = Thrown e ->
    query text params db h = (Thrown e, h ++ [EvConnect (Thrown e)])
    /\ executed (snd (query text params db h)) = executed h.
Proof.
  intros db h text params e Hc.
  rewrite (query_connect_failure db h text params e Hc). split; [reflexivity|].
  cbn [snd]. rewrite executed_app. apply List.app_nil_r.
Qed.

Lemma query_without_connection_witness :
  query "SELECT 1;" [] (unreachable (DriverError "ECONNREFUSED")) []
  = (Thrown (DriverError "ECONNREFUSED"),
     [EvConnect (Thrown (DriverError "ECONNREFUSED"))]).
Proof.
  apply (query_without_connection (unreachable (DriverError "ECONNREFUSED"))
           [] "SELECT 1;" [] (DriverError "ECONNREFUSED")).
  reflexivity.
Defined.

(** ** Bulk insert: edge cases *)

(** X3: [insertIntoTable] given an empty array fails without calling the
    driver: the bulk builder throws [No data provided for bulk insert.],
    which is logged, and the caller gets the operation's own error. *)
Theorem insertIntoTable_empty_array :
  forall table db h,
    insertBulk table [] db h
    = (Thrown (Error "No data provided for bulk insert."), h)
    /\ insertIntoTable table (DataArray []) db h
       = (Thrown (Error ("Failed to insert into '" +++ table +++ "'.")),
          h ++ [EvLog ("Error inserting into '" +++ table +++ "':")
                  (Error "No data provided for bulk insert.")])
    /\ driver_calls (snd (insertIntoTable table (DataArray []) db h))
       = driver_calls h.
Proof.
  intros table db h. repeat split. apply driver_calls_log.
Qed.

Lemma get_own (o : object value) (k : string) (v : value) :
  NoDup (Object_keys o) -> In (k, v) o -> get o k = v.
Proof.
  unfold Object_keys. induction o as [|[k' v'] o IH]; intros N I; [destruct I|].
  cbn [map fst] in N. inversion N as [|? ? Hnot N']; subst.
  cbn [get]. destruct I as [I|I].
  - inversion I; subst. now rewrite String.eqb_refl.
  - destruct (String.eqb_spec k' k) as [->|_].
    + exfalso. apply Hnot. change k with (fst (k, v)). now apply in_map.
    + now apply IH.
Qed.

Lemma get_own_keys (o : object value) :
  NoDup (Object_keys o) ->
  map (fun k => get o k) (Object_keys o) = Object_values o.
Proof.
  intros N. unfold Object_keys, Object_values. rewrite map_map.
  apply map_ext_in. intros [k v] I. cbn [fst snd]. now apply get_own.
Qed.

(** X4: when the keys of the first row are distinct and every later row
    lists the same keys in the same order, the values bound by the bulk
    insert are the rows' own values, row after row. *)
Theorem insertBulk_uniform_rows :
  forall table (first : object value) (rest : list (object value)),
    NoDup (Object_keys first) ->
    Forall (fun r => Object_keys r = Object_keys first) rest ->
    snd (insertBulk_statement table first (first :: rest))
    = concat (map Object_values (first :: rest)).
Proof.
  intros table first rest N U.
  rewrite insertBulk_statement_spec. cbn [snd]. unfold flat. f_equal.
  assert (A : Forall (fun r => Object_keys r = Object_keys first) (first :: rest))
    by (constructor; [reflexivity | assumption]).
  clear U. induction A as [|r l Hr _ IH]; [reflexivity|].
  cbn [map]. rewrite IH. f_equal.
  rewrite <- Hr. apply get_own_keys. now rewrite Hr.
Qed.

Lemma insertBulk_uniform_rows_witness :
  snd (insertBulk_statement "t" [("a", VNum 1); ("b", VStr "x")]
         [[("a", VNum 1); ("b", VStr "x")]; [("a", VNum 2); ("b", VNull)]])
  = [VNum 1; VStr "x"; VNum 2; VNull].
Proof.
  apply (insertBulk_uniform_rows "t" [("a", VNum 1); ("b", VStr "x")]
           [[("a", VNum 2); ("b", VNull)]]).
  - repeat constructor; cbn; intuition discriminate.
  - repeat constructor.
Defined.

Lemma get_without (r1 r2 : object value) (k key : string) (v : value) :
  k <> key -> get (r1 ++ (k, v) :: r2) key = get (r1 ++ r2) key.
Proof.
  intros Hk. induction r1 as [|[k' v'] r1 IH]; cbn [app get].
  - destruct (String.eqb_spec k key); [contradiction | reflexivity].
  - now rewrite IH.
Qed.

(** X5: an entry of a later row whose key the first row does not have is
    dropped without notice: the statement text and the bound values are the
    same as if the row did not hold that entry. *)
Theorem insertBulk_ignores_extra_keys :
  forall table (first : object value) (before after : list (object value))
         (r1 r2 : object value) k v,
    ~ In k (Object_keys first) ->
    insertBulk_statement table first
      (first :: before ++ (r1 ++ (k, v) :: r2) :: after)
    = insertBulk_statement table first (first :: before ++ (r1 ++ r2) :: after).
Proof.
  intros table first before after r1 r2 k v Hk.
  rewrite !insertBulk_statement_spec. f_equal.
  - cbn [length]. now rewrite !length_app.
  - f_equal. cbn [map]. f_equal. rewrite !map_app. f_equal. cbn [map]. f_equal.
    apply map_ext_in. intros key Hkey. apply get_without.
    intros ->. contradiction.
Qed.

Lemma insertBulk_ignores_extra_keys_witness :
  insertBulk_statement "t" [("a", VNum 1)]
    [[("a", VNum 1)]; [("a", VNum 2); ("b", VNum 9)]]
  = insertBulk_statement "t" [("a", VNum 1)] [[("a", VNum 1)]; [("a", VNum 2)]].
Proof.
  apply (insertBulk_ignores_extra_keys "t" [("a", VNum 1)] [] []
           [("a", VNum 2)] [] "b" (VNum 9)).
  cbn. intuition discriminate.
Defined.

Lemma get_missing (o : object value) (k : string) :
  ~ In k (Object_keys o) ->
  existsb (String.eqb k) Object_prototype = false ->
  get o k = VUndefined.
Proof.
  intros Hk Hp. induction o as [|[k' v'] o IH]; cbn [get].
  - now rewrite Hp.
  - destruct (String.eqb_spec k' k) as [->|_].
    + exfalso. apply Hk. now left.
    + apply IH. intros I. apply Hk. now right.
Qed.

(** X6: when row i lacks the j-th key of the first row (and that key is not
    the name of a member every object inherits), the bulk insert binds
    [undefined] in that row's place for the column instead of failing. *)
Theorem insertBulk_binds_undefined_for_missing_key :
  forall table (first : object value) (rest : list (object value)) i j,
    let dataArray := first :: rest in
    let keys := Object_keys first in
    i < length dataArray -> j < length keys ->
    ~ In (nth j keys "") (Object_keys (nth i dataArray [])) ->
    existsb (String.eqb (nth j keys "")) Object_prototype = false ->
    nth (i * length keys + j) (snd (insertBulk_statement table first dataArray))
        VNull
    = VUndefined.
Proof.
  intros table first rest i j dataArray keys Hi Hj Hmiss Hproto.
  rewrite insertBulk_statement_spec. cbn [snd]. fold keys.
  rewrite (nth_indep _ VNull VUndefined)
    by (rewrite length_bulk_values; nia).
  rewrite bulk_value_at by assumption.
  now apply get_missing.
Qed.

Lemma insertBulk_binds_undefined_for_missing_key_witness :
  nth (1 * 2 + 1)
      (snd (insertBulk_statement "t" [("a", VNum 1); ("b", VNum 2)]
              [[("a", VNum 1); ("b", VNum 2)]; [("a", VNum 3)]]))
      VNull
  = VUndefined
  /\ snd (insertBulk_statement "t" [("a", VNum 1); ("b", VNum 2)]
            [[("a", VNum 1); ("b", VNum 2)]; [("a", VNum 3)]])
     = [VNum 1; VNum 2; VNum 3; VUndefined].
Proof.
  split; [|reflexivity].
  apply (insertBulk_binds_undefined_for_missing_key "t"
           [("a", VNum 1); ("b", VNum 2)] [[("a", VNum 3)]] 1 1).
  - cbn. lia.
  - cbn. lia.
  - cbn. intuition discriminate.
  - reflexivity.
Defined.

(** ** Table and column definitions *)

Lemma column_definitions_map (columns : object string) :
  map (fun entry : string * string =>
         let '(key, value) := entry in key +++ " " +++ value)
      (Object_entries columns)
  = column_definitions columns.
Proof.
  unfold Object_entries.
  induction columns as [|[k v] columns IH]; cbn [map column_definitions];
    [reflexivity | now rewrite IH].
Qed.

Lemma clauses_map {A} (clause : A -> string) (entries : list A) :
  map clause entries = clauses clause entries.
Proof.
  induction entries as [|e l IH]; cbn [map clauses];
    [reflexivity | now rewrite IH].
Qed.

(** X7: [createTable] checks nothing: for any column mapping, the empty one
    included, it executes [CREATE TABLE IF NOT EXISTS table (c1 t1, ...);]
    with no parameters and hands back the rows the server answers; when the
    server rejects the statement it logs that error and throws its own. *)
Theorem createTable_statement :
  forall table (columns : object string) db h c r,
    let text :=
      "CREATE TABLE IF NOT EXISTS " +++ table +++ " ("
        +++ join ", " (column_definitions columns) +++ ");" in
    answers db h c text [] r ->
    createTable table columns db h
    = (wrapped RRows "Failed to execute database query." r,
       h ++ round_trip c text [] r ++ logged "Database query error:" r).
Proof.
  intros table columns db h c r text H.
  unfold createTable, create. rewrite column_definitions_map.
  now apply try_catch_query.
Qed.

Lemma createTable_statement_witness :
  createTable "users" [("id", "serial PRIMARY KEY"); ("name", "text")]
    (steady 1 []) []
  = (Returned (RRows []),
     [EvConnect (Returned 1);
      EvQuery 1
        "CREATE TABLE IF NOT EXISTS users (id serial PRIMARY KEY, name text);"
        [] (Returned []);
      EvRelease 1])
  /\ createTable "users" [] (rejecting 1 (DriverError "42601")) []
     = (Thrown (Error "Failed to execute database query."),
        [EvConnect (Returned 1);
         EvQuery 1 "CREATE TABLE IF NOT EXISTS users ();" []
           (Thrown (DriverError "42601"));
         EvRelease 1;
         EvLog "Database query error:" (DriverError "42601")]).
Proof.
  split.
  - apply (createTable_statement "users"
             [("id", "serial PRIMARY KEY"); ("name", "text")]
             (steady 1 []) [] 1 (Returned [])).
    split; reflexivity.
  - apply (createTable_statement "users" [] (rejecting 1 (DriverError "42601"))
             [] 1 (Thrown (DriverError "42601"))).
    split; reflexivity.
Defined.

Lemma alterTable_nonempty table (ch : changes) db h c r :
  change_count ch <> 0 ->
  answers db h c
    ("ALTER TABLE " +++ table +++ " " +++ join ", " (alterations_of ch) +++ ";")
    [] r ->
  alterTable table ch db h
  = (match r with
     | Returned rows => Returned (RRows rows)
     | Thrown e => Thrown e
     end,
     h ++ round_trip c
            ("ALTER TABLE " +++ table +++ " " +++ join ", " (alterations_of ch)
               +++ ";") [] r).
Proof.
  intros Hn H. unfold alterTable.
  rewrite alterations_of_length.
  destruct (Nat.eqb_spec (change_count ch) 0) as [E|_]; [contradiction|].
  unfold bind. rewrite (query_answers _ _ _ _ _ _ H).
  destruct r; reflexivity.
Qed.



(** ** Copy and drop *)

(** X9: [copy] acts on the csv format only: it then executes one
    [COPY table FROM 'file' WITH (FORMAT csv, HEADER true|false)] with no
    parameters, the server's error passing through unchanged; for any other
    format it hands back [undefined] and calls nothing. *)
Theorem copy_csv_only :
  forall table file format header db h,
    (format <> "csv" -> copy table file format header db h = (Returned RUndefined, h))
    /\ (forall c r,
           let text :=
             "COPY " +++ table +++ " FROM '" +++ file
               +++ "' WITH (FORMAT csv, HEADER "
               +++ (if header then "true" else "false") +++ ")" in
           format = "csv" ->
           answers db h c text [] r ->
           copy table file format header db h
           = (match r with
              | Returned rows => Returned (RRows rows)
              | Thrown e => Thrown e
              end,
              h ++ round_trip c text [] r)).
Proof.
  intros table file format header db h. split.
  - intros Hf. unfold copy.
    destruct (String.eqb_spec format "csv") as [E|_]; [contradiction|reflexivity].
  - intros c r text -> H. unfold copy. cbn [String.eqb Ascii.eqb Bool.eqb andb].
    change (String.eqb "csv" "csv") with true. cbv iota.
    destruct header; unfold bind;
      match goal with
      | |- context [query ?t [] db h] =>
          replace (query t [] db h) with (r, h ++ round_trip c text [] r)
            by (symmetry; exact (query_answers _ _ _ _ _ _ H))
      end;
      destruct r; reflexivity.
Qed.

Lemma copy_csv_only_witness :
  copy "users" "/tmp/users.tsv" "text" true (steady 1 []) []
  = (Returned RUndefined, [])
  /\ copy "users" "/tmp/users.csv" "csv" false (steady 1 []) []
     = (Returned (RRows []),
        [EvConnect (Returned 1);
         EvQuery 1
           "COPY users FROM '/tmp/users.csv' WITH (FORMAT csv, HEADER false)"
           [] (Returned []);
         EvRelease 1]).
Proof.
  split.
  - destruct (copy_csv_only "users" "/tmp/users.tsv" "text" true (steady 1 []) [])
      as [Hother _].
    apply Hother. discriminate.
  - destruct (copy_csv_only "users" "/tmp/users.csv" "csv" false (steady 1 []) [])
      as [_ Hcsv].
    apply (Hcsv 1 (Returned [])); [reflexivity | split; reflexivity].
Defined.

(** X10: [drop] checks the name before the type: an invalid name is refused
    whatever the type; with a valid name, the type [column] and every type
    other than [table] and [database] are refused, each with its own
    message; none of these refusals calls the driver. *)
Theorem drop_refusals :
  forall type name db h,
    (~ valid_identifier name ->
     drop type name db h
     = (Thrown (Error "Invalid name provided. Only alphanumeric characters and underscores are allowed."),
        h))
    /\ (valid_identifier name -> type = "column" ->
        drop type name db h
        = (Thrown (Error "Columns cannot be dropped using this function, use the alterTable function to drop columns."),
           h))
    /\ (valid_identifier name ->
        type <> "table" -> type <> "database" -> type <> "column" ->
        drop type name db h
        = (Thrown (Error ("Invalid type (" +++ type +++ ") provided. Use "
                            +++ dquote +++ "table" +++ dquote +++ " or "
                            +++ dquote +++ "database" +++ dquote +++ ".")),
           h)).
Proof.
  intros type name db h. split; [|split].
  - intros V. apply name_regex_test_false_iff in V. unfold drop. now rewrite V.
  - intros V ->. apply name_regex_test_iff in V. unfold drop. now rewrite V.
  - intros V Ht Hd Hc. apply name_regex_test_iff in V. unfold drop. rewrite V.
    cbn [negb].
    destruct (String.eqb_spec type "table"); [contradiction|].
    destruct (String.eqb_spec type "database"); [contradiction|].
    destruct (String.eqb_spec type "column"); [contradiction|].
    reflexivity.
Qed.

Lemma drop_refusals_witness :
  drop "table" "a b" (steady 1 []) []
  = (Thrown (Error "Invalid name provided. Only alphanumeric characters and underscores are allowed."),
     [])
  /\ drop "column" "age" (steady 1 []) []
     = (Thrown (Error "Columns cannot be dropped using this function, use the alterTable function to drop columns."),
        [])
  /\ fst (drop "index" "users_idx" (steady 1 []) [])
     = Thrown (Error ("Invalid type (index) provided. Use "
                        +++ dquote +++ "table" +++ dquote +++ " or "
                        +++ dquote +++ "database" +++ dquote +++ ".")).
Proof.
  split; [|split].
  - destruct (drop_refusals "table" "a b" (steady 1 []) []) as [H _].
    apply H. apply name_regex_test_false_iff. reflexivity.
  - destruct (drop_refusals "column" "age" (steady 1 []) []) as (_ & H & _).
    apply H; [apply name_regex_test_iff; reflexivity | reflexivity].
  - destruct (drop_refusals "index" "users_idx" (steady 1 []) []) as (_ & _ & H).
    rewrite H; [reflexivity | apply name_regex_test_iff; reflexivity
               | discriminate | discriminate | discriminate].
Defined.

Lemma wrapped_query_executes text params label generic
  (f : list row -> result) db h :
  exists l,
    snd (try_catch (rows <- query text params ;; ret (f rows))
           (fun error => console_error label error ;; throw (Error generic)) db h)
    = h ++ l
    /\ (executed l = [] \/ executed l = [(text, params)]).
Proof.
  destruct (connect_reply db h) as [c|e] eqn:Hc.
  - rewrite (try_catch_query db h c text params
               (query_reply db (h ++ [EvConnect (Returned c)]) c text params)
               label generic f (conj Hc eq_refl)).
    eexists. split; [reflexivity|]. right.
    rewrite executed_app. cbn [snd round_trip executed].
    destruct (query_reply _ _ _ _); reflexivity.
  - unfold try_catch, bind at 1.
    rewrite (query_connect_failure db h text params e Hc).
    unfold bind, console_error, throw. cbn [snd].
    rewrite <- List.app_assoc. eexists. split; [reflexivity|]. now left.
Qed.

(** X11: whatever the name and whatever the database answers, every
    statement that [createDatabase], [dropTable] and [dropDatabase] hand to
    [client.query] has no placeholder in its text and no bound value: the
    name check lets no [$] through.  For a name that passes the check, and a
    pool that hands out a connection, that statement is the one built from
    the name. *)
Theorem validated_statements_hold_no_placeholder :
  forall name db h,
    (exists l, snd (createDatabase name db h) = h ++ l /\ Forall bare (executed l))
    /\ (exists l, snd (dropTable name db h) = h ++ l /\ Forall bare (executed l))
    /\ (exists l, snd (dropDatabase name db h) = h ++ l /\ Forall bare (executed l))
    /\ (valid_identifier name ->
        forall c, connect_reply db h = Returned c ->
          executed (snd (createDatabase name db h))
          = executed h ++ [("CREATE DATABASE " +++ name, [])]
          /\ executed (snd (dropTable name db h))
             = executed h ++ [("DROP TABLE IF EXISTS " +++ name, [])]
          /\ executed (snd (dropDatabase name db h))
             = executed h ++ [("DROP DATABASE IF EXISTS " +++ name, [])]).
Proof.
  intros name db h.
  assert (B : forall prefix l,
             name_regex_test name = true -> dollar_free prefix = true ->
             executed l = [] \/ executed l = [(prefix +++ name, [])] ->
             Forall bare (executed l)).
  { intros prefix l V P [E|E]; rewrite E; constructor; [|constructor].
    split; [|reflexivity]. cbn [fst].
    apply emits_whole, emits_free. rewrite dollar_free_append, P.
    apply valid_identifier_dollar_free. now apply name_regex_test_iff. }
  assert (R : forall c text label generic,
             connect_reply db h = Returned c ->
             executed
               (snd (try_catch (rows <- query text [] ;; ret (RRows rows))
                       (fun error =>
                          console_error label error ;; throw (Error generic))
                       db h))
             = executed h ++ [(text, [])]).
  { intros c text label generic Hc.
    rewrite (try_catch_query db h c text []
               (query_reply db (h ++ [EvConnect (Returned c)]) c text [])
               label generic RRows (conj Hc eq_refl)).
    cbn [snd]. rewrite !executed_app. cbn [round_trip executed].
    destruct (query_reply _ _ _ _); reflexivity. }
  destruct (name_regex_test name) eqn:V.
  - assert (Ec : createDatabase name
                 = try_catch (rows <- query ("CREATE DATABASE " +++ name) [] ;;
                              ret (RRows rows))
                     (fun error =>
                        console_error "Database query error:" error ;;
                        throw (Error "Failed to execute database query.")))
      by (unfold createDatabase, createDB; now rewrite V).
    assert (Et : dropTable name
                 = try_catch (rows <- query ("DROP TABLE IF EXISTS " +++ name) [] ;;
                              ret (RRows rows))
                     (fun error =>
                        console_error "Database query error:" error ;;
                        throw (Error "Failed to execute database query.")))
      by (unfold dropTable, drop; now rewrite V).
    assert (Ed : dropDatabase name
                 = try_catch (rows <- query ("DROP DATABASE IF EXISTS " +++ name) [] ;;
                              ret (RRows rows))
                     (fun error =>
                        console_error "Database query error:" error ;;
                        throw (Error "Failed to execute database query.")))
      by (unfold dropDatabase, drop; now rewrite V).
    rewrite Ec, Et, Ed.
    split; [|split; [|split]].
    + destruct (wrapped_query_executes ("CREATE DATABASE " +++ name) []
                  "Database query error:" "Failed to execute database query."
                  RRows db h) as [l [E X]].
      exists l. split; [exact E | now apply (B "CREATE DATABASE ")].
    + destruct (wrapped_query_executes ("DROP TABLE IF EXISTS " +++ name) []
                  "Database query error:" "Failed to execute database query."
                  RRows db h) as [l [E X]].
      exists l. split; [exact E | now apply (B "DROP TABLE IF EXISTS ")].
    + destruct (wrapped_query_executes ("DROP DATABASE IF EXISTS " +++ name) []
                  "Database query error:" "Failed to execute database query."
                  RRows db h) as [l [E X]].
      exists l. split; [exact E | now apply (B "DROP DATABASE IF EXISTS ")].
    + intros _ c Hc. repeat split; now apply (R c).
  - split; [|split; [|split]].
    + eexists. unfold createDatabase, createDB, try_catch. rewrite V.
      cbn. split; [reflexivity | constructor].
    + eexists. unfold dropTable, drop, try_catch. rewrite V.
      cbn. split; [reflexivity | constructor].
    + eexists. unfold dropDatabase, drop, try_catch. rewrite V.
      cbn. split; [reflexivity | constructor].
    + intros Vn. apply name_regex_test_iff in Vn. congruence.
Qed.

Lemma validated_statements_hold_no_placeholder_witness :
  executed (snd (dropTable "order_items_2" (rejecting 1 (DriverError "55006")) []))
  = [("DROP TABLE IF EXISTS order_items_2", [])]
  /\ bare ("DROP TABLE IF EXISTS order_items_2", []).
Proof.
  destruct (validated_statements_hold_no_placeholder "order_items_2"
              (rejecting 1 (DriverError "55006")) [])
    as (_ & [l [E B]] & _ & H).
  assert (V : valid_identifier "order_items_2")
    by (apply name_regex_test_iff; reflexivity).
  destruct (H V 1 eq_refl) as (_ & Hdrop & _).
  split; [exact Hdrop|].
  split; reflexivity.
Defined.

(** ** Rejected statements *)

(** X12: when the server rejects the statement with [e], [insertIntoTable]
    (one row or many), [updateTable] and [selectFromTable] still release the
    connection, then log [e] under their label, and throw their own error in
    place of [e]. *)
Theorem rejected_statements_are_logged_and_replaced :
  forall table db h c e,
    (forall data,
        let s := insert_statement table data in
        answers db h c (fst s) (snd s) (Thrown e) ->
        insertIntoTable table (DataObject data) db h
        = (Thrown (Error ("Failed to insert into '" +++ table +++ "'.")),
           h ++ round_trip c (fst s) (snd s) (Thrown e)
             ++ [EvLog ("Error inserting into '" +++ table +++ "':") e]))
    /\ (forall first rest,
           let s := insertBulk_statement table first (first :: rest) in
           answers db h c (fst s) (snd s) (Thrown e) ->
           insertIntoTable table (DataArray (first :: rest)) db h
           = (Thrown (Error ("Failed to insert into '" +++ table +++ "'.")),
              h ++ round_trip c (fst s) (snd s) (Thrown e)
                ++ [EvLog ("Error inserting into '" +++ table +++ "':") e]))
    /\ (forall data where_,
           let s := update_statement table data where_ in
           answers db h c (fst s) (snd s) (Thrown e) ->
           updateTable table data where_ db h
           = (Thrown (Error "Failed to update the table."),
              h ++ round_trip c (fst s) (snd s) (Thrown e)
                ++ [EvLog "Database update error:" e]))
    /\ (forall where_,
           let s := select_statement table (default_where where_) in
           answers db h c (fst s) (snd s) (Thrown e) ->
           selectFromTable table where_ db h
           = (Thrown (Error "Failed to execute database query."),
              h ++ round_trip c (fst s) (snd s) (Thrown e)
                ++ [EvLog "Database query error:" e])).
Proof.
  intros table db h c e. repeat split.
  - intros data s H. unfold insertIntoTable, insert. fold s.
    destruct s as [q v]. cbn [fst snd] in *.
    now rewrite (try_catch_query db h c q v (Thrown e) _ _ first_row H).
  - intros first rest s H. unfold insertIntoTable, insertBulk. fold s.
    destruct s as [q v]. cbn [fst snd] in *.
    now rewrite (try_catch_query db h c q v (Thrown e) _ _ RRows H).
  - intros data where_ s H. unfold updateTable, update. fold s.
    destruct s as [q v]. cbn [fst snd] in *.
    now rewrite (try_catch_query db h c q v (Thrown e) _ _
                   (fun _ => RUndefined) H).
  - intros where_ s H. unfold selectFromTable, select.
    cbn [default_where]. fold s.
    destruct s as [q v]. cbn [fst snd] in *.
    now rewrite (try_catch_query db h c q v (Thrown e) _ _ RRows H).
Qed.

Lemma rejected_statements_are_logged_and_replaced_witness :
  insertIntoTable "t" (DataObject [("a", VNum 1)])
    (rejecting 2 (DriverError "23505")) []
  = (Thrown (Error "Failed to insert into 't'."),
     [EvConnect (Returned 2);
      EvQuery 2 "INSERT INTO t (a) VALUES ($1) RETURNING *;" [VNum 1]
        (Thrown (DriverError "23505"));
      EvRelease 2;
      EvLog "Error inserting into 't':" (DriverError "23505")])
  /\ updateTable "t" [("a", VNum 1)] [("id", VNum 7)]
       (rejecting 2 (DriverError "23505")) []
     = (Thrown (Error "Failed to update the table."),
        [EvConnect (Returned 2);
         EvQuery 2 "UPDATE t SET a = $1 WHERE id = $2;" [VNum 1; VNum 7]
           (Thrown (DriverError "23505"));
         EvRelease 2;
         EvLog "Database update error:" (DriverError "23505")]).
Proof.
  destruct (rejected_statements_are_logged_and_replaced "t"
              (rejecting 2 (DriverError "23505")) [] 2 (DriverError "23505"))
    as (Hinsert & _ & Hupdate & _).
  split.
  - apply (Hinsert [("a", VNum 1)]). split; reflexivity.
  - apply (Hupdate [("a", VNum 1)] [("id", VNum 7)]). split; reflexivity.
Defined.

(** X13: when the column mapping given to [addColumns] has an entry named
    [toString] and the server rejects the statement, building the log label
    throws a [TypeError]: the caller gets neither the server's error nor the
    operation's own, and nothing is logged. *)
Theorem addColumns_toString_column :
  forall table (columns : object string) db h c e,
    let text :=
      "ALTER TABLE " +++ table +++ " "
        +++ join ", "
              (clauses (fun e => "ADD COLUMN " +++ fst e +++ " " +++ snd e) columns)
        +++ ";" in
    has_own columns "toString" = true ->
    answers db h c text [] (Thrown e) ->
    exists message,
      addColumns table columns db h
      = (Thrown (TypeError message), h ++ round_trip c text [] (Thrown e)).
Proof.
  intros table columns db h c e text Hts H.
  exists "Cannot convert object to primitive value".
  unfold addColumns, try_catch.
  match goal with
  | |- context [alterTable table ?ch db h] =>
      assert (B : alterations_of ch
                  = clauses (fun e => "ADD COLUMN " +++ fst e +++ " " +++ snd e)
                            columns);
      [| pose proof (alterTable_nonempty table ch db h c (Thrown e)) as A ]
  end.
  { unfold alterations_of, Object_entries. cbn [add drop_ modify app].
    rewrite <- clauses_map. apply map_ext. now intros [k v]. }
  rewrite B in A. rewrite A; [| | exact H].
  - unfold bind, object_in_template. now rewrite Hts.
  - destruct columns; [discriminate | cbn; lia].
Qed.

Lemma addColumns_toString_column_witness :
  exists message,
    addColumns "t" [("toString", "text")] (rejecting 1 (DriverError "42701")) []
    = (Thrown (TypeError message),
       [EvConnect (Returned 1);
        EvQuery 1 "ALTER TABLE t ADD COLUMN toString text;" []
          (Thrown (DriverError "42701"));
        EvRelease 1]).
Proof.
  apply (addColumns_toString_column "t" [("toString", "text")]
           (rejecting 1 (DriverError "42701")) [] 1 (DriverError "42701")).
  - reflexivity.
  - split; reflexivity.
Defined.

(** ** Empty mappings *)

(** X14: an empty mapping is not refused: [updateTable] with an empty WHERE
    mapping sends [UPDATE table SET ... WHERE ;] and [insertIntoTable] with
    an empty row sends [INSERT INTO table () VALUES () RETURNING *;], each
    leaving the verdict to the server. *)
Theorem empty_mappings_reach_the_server :
  forall table db h c r,
    (forall data : object value,
        let text :=
          "UPDATE " +++ table +++ " SET "
            +++ join ", " (equalities 1 (Object_keys data)) +++ " WHERE ;" in
        answers db h c text (Object_values data) r ->
        updateTable table data [] db h
        = (wrapped (fun _ => RUndefined) "Failed to update the table." r,
           h ++ round_trip c text (Object_values data) r
             ++ logged "Database update error:" r))
    /\ (answers db h c ("INSERT INTO " +++ table +++ " () VALUES () RETURNING *;")
          [] r ->
        insertIntoTable table (DataObject []) db h
        = (wrapped first_row ("Failed to insert into '" +++ table +++ "'.") r,
           h ++ round_trip c
                  ("INSERT INTO " +++ table +++ " () VALUES () RETURNING *;") [] r
             ++ logged ("Error inserting into '" +++ table +++ "':") r)).
Proof.
  intros table db h c r. split.
  - intros data text H. unfold updateTable, update.
    rewrite update_statement_spec. cbv zeta iota.
    unfold Object_values at 2. cbn [map]. rewrite List.app_nil_r.
    now apply try_catch_query.
  - intros H. unfold insertIntoTable, insert.
    now apply try_catch_query.
Qed.

Lemma empty_mappings_reach_the_server_witness :
  updateTable "t" [("a", VNum 5)] [] (rejecting 1 (DriverError "42601")) []
  = (Thrown (Error "Failed to update the table."),
     [EvConnect (Returned 1);
      EvQuery 1 "UPDATE t SET a = $1 WHERE ;" [VNum 5]
        (Thrown (DriverError "42601"));
      EvRelease 1;
      EvLog "Database update error:" (DriverError "42601")])
  /\ insertIntoTable "t" (DataObject []) (steady 1 []) []
     = (Returned RUndefined,
        [EvConnect (Returned 1);
         EvQuery 1 "INSERT INTO t () VALUES () RETURNING *;" [] (Returned []);
         EvRelease 1]).
Proof.
  split.
  - destruct (empty_mappings_reach_the_server "t"
                (rejecting 1 (DriverError "42601")) [] 1
                (Thrown (DriverError "42601"))) as [Hupdate _].
    apply (Hupdate [("a", VNum 5)]). split; reflexivity.
  - destruct (empty_mappings_reach_the_server "t" (steady 1 []) [] 1 (Returned []))
      as [_ Hinsert].
    apply Hinsert. split; reflexivity.
Defined.

(** ** Values stay out of the text *)

(** X15: the text of a statement built by [insert], [select], [update] or
    [insertBulk] depends on the table name, the keys and the number of rows
    only: two calls whose mappings have the same keys build the same text,
    whatever the values are. *)
Theorem statement_text_ignores_values :
  forall table,
    (forall data data' : object value,
        Object_keys data = Object_keys data' ->
        fst (insert_statement table data) = fst (insert_statement table data'))
    /\ (forall where_ where_' : object value,
           Object_keys where_ = Object_keys where_' ->
           fst (select_statement table where_)
           = fst (select_statement table where_'))
    /\ (forall data data' where_ where_' : object value,
           Object_keys data = Object_keys data' ->
           Object_keys where_ = Object_keys where_' ->
           fst (update_statement table data where_)
           = fst (update_statement table data' where_'))
    /\ (forall (first first' : object value) (rows rows' : list (object value)),
           Object_keys first = Object_keys first' ->
           length rows = length rows' ->
           fst (insertBulk_statement table first rows)
           = fst (insertBulk_statement table first' rows')).
Proof.
  assert (L : forall o o' : object value,
             Object_keys o = Object_keys o' -> length o = length o').
  { intros o o' E. apply (f_equal (@length string)) in E.
    unfold Object_keys in E. now rewrite !length_map in E. }
  intros table. repeat split.
  - intros data data' E. rewrite !insert_statement_spec. cbn [fst].
    now rewrite E, (L _ _ E).
  - intros where_ where_' E. unfold select_statement. cbn [fst]. now rewrite E.
  - intros data data' where_ where_' E E'. rewrite !update_statement_spec.
    cbn [fst]. now rewrite E, E', (L _ _ E).
  - intros first first' rows rows' E El. rewrite !insertBulk_statement_spec.
    cbn [fst]. now rewrite E, El, (L _ _ E).
Qed.

Lemma statement_text_ignores_values_witness :
  fst (select_statement "t" [("name", VStr "x' OR '1'='1")])
  = fst (select_statement "t" [("name", VNull)])
  /\ fst (insertBulk_statement "t" [("a", VNum 1)] [[("a", VNum 1)]; [("a", VNum 2)]])
     = fst (insertBulk_statement "t" [("a", VStr "); DROP TABLE t; --")]
              [[("a", VStr "); DROP TABLE t; --")]; []]).
Proof.
  destruct (statement_text_ignores_values "t") as (_ & Hselect & _ & Hbulk).
  split.
  - apply Hselect. reflexivity.
  - apply Hbulk; reflexivity.
Defined.
